(** * mini-chatgpt: completion adapters, conversation log and orchestration

    A shallow embedding of the backend of the chat service:
    - [services/llm/mockAdapter.ts] and [services/llm/ollamaAdapter.ts]
      (the two completion adapters and their retry loop),
    - [services/conversationService.ts] (conversation log, cursor pagination,
      [sendMessage]),
    - [middleware/errorHandler.ts] (the boundary error mapping),
    - [services/llm/index.ts] and [utils/config.ts] (the adapter factory and
      its configuration), [routes/conversations.ts] (the message route) and
      [frontend/src/api.ts] (the client's [fetchApi]).

    Everything the code obtains from outside the process is an explicit input
    of the model: the outcome of every outbound [fetch], the identifier (cuid)
    and the timestamp ([now()]) the database gives to a new row. *)

From stdpp Require Import base list sorting strings pretty.
From Stdlib Require Import Ascii ZArith Lia.

Local Open Scope string_scope.

(** ** JavaScript primitives used by the code *)

Module Js.

(** A thrown JavaScript value, seen through the properties the code reads:
    [err instanceof ZodError] (with [err.errors]), [err.name] and
    [err.message] ([None] when the property is undefined). *)
Record Error := {
  zodIssues : option (list string);
  name : string;
  message : option string;
}.

(** [new Error(msg)] *)
Definition newError (msg : string) : Error :=
  {| zodIssues := None; name := "Error"; message := Some msg |}.

(** The rejection of [fetch] when its [AbortController] fires. *)
Definition abortError : Error :=
  {| zodIssues := None; name := "AbortError";
     message := Some "This operation was aborted" |}.

(** Reading a property of [null]. *)
Definition typeErrorNull : Error :=
  {| zodIssues := None; name := "TypeError";
     message := Some "Cannot read properties of null" |}.

(** [hay.includes(needle)] *)
Fixpoint includes (needle hay : string) : bool :=
  String.prefix needle hay ||
  match hay with
  | EmptyString => false
  | String _ rest => includes needle rest
  end.

(** [err.message?.includes(needle)], undefined counting as false. *)
Definition messageIncludes (needle : string) (e : Error) : bool :=
  match message e with
  | Some m => includes needle m
  | None => false
  end.

(** Truthiness of a string: only the empty string is falsy. *)
Definition truthy (s : string) : bool :=
  match s with EmptyString => false | _ => true end.

(** [x || d] for an optional number: undefined, NaN (both [None]) and [0]
    are falsy. *)
Definition numOr (x : option Z) (d : Z) : Z :=
  match x with
  | Some z => if Z.eqb z 0 then d else z
  | None => d
  end.

(** [a || b] for optional strings. *)
Definition strOr (a b : option string) : option string :=
  match a with
  | Some s => if truthy s then a else b
  | None => b
  end.

End Js.

(** ** Completion adapters *)

Module Llm.

Inductive Role := user | assistant.

Definition roleName (r : Role) : string :=
  match r with user => "user" | assistant => "assistant" end.

(** [types.ts]: [Message] *)
Record Message := { role : Role; content : string }.

(** [messages.map((m) => `${m.role}: ${m.content}`).join("\n")] *)
Fixpoint join (sep : string) (l : list string) : string :=
  match l with
  | [] => ""
  | [s] => s
  | s :: rest => s +:+ sep +:+ join sep rest
  end.

Definition renderPrompt (messages : list Message) : string :=
  join (String "010"%char "")
       (map (fun m => roleName (role m) +:+ ": " +:+ content m) messages).

(** The parsed body of a response, seen through the fields the adapters
    read, with the type the adapters declare for them: a string when present.
    (Bodies whose fields hold other values: [Untyped] below.) *)
Inductive Body :=
| NotJson (e : Js.Error)        (* [response.json()] rejects with [e] *)
| JsonNull                      (* the body is the JSON value [null] *)
| JsonObject (response completion : option string).

(** What one [fetch] does: it rejects (network failure, or [AbortError] when
    the attempt's controller fires), or resolves with a status and a body. *)
Inductive Attempt :=
| Rejects (e : Js.Error)
| Responds (status : nat) (body : Body).

(** [response.ok] *)
Definition ok (status : nat) : bool :=
  (200 <=? status)%nat && (status <=? 299)%nat.

(** The request an adapter sends. *)
Record Request := { url : string; model : option string; prompt : string }.

(** The completion backend: the outcome of the attempt numbered [attempt]
    (0-indexed) for a request. *)
Definition Backend := Request -> nat -> Attempt.

(** The resolved value [{ completion }]; [None] is [undefined]. *)
Definition Completion := option string.

(** Adapter settings as given to the constructors ([None]: undefined or
    NaN). The settings come from [parseInt], so they are integers; the
    products and powers the adapters compute from them are exact in
    JavaScript below 2^53. *)
Record Config := {
  baseUrl : string;
  cfgTimeout : option Z;
  cfgMaxRetries : option Z;
  cfgRetryDelayMs : option Z;
}.

(** The fields the constructors store. *)
Definition timeout (c : Config) : Z := Js.numOr (cfgTimeout c) 12000.
Definition maxRetries (c : Config) : Z := Js.numOr (cfgMaxRetries c) 2.
Definition retryDelayMs (c : Config) : Z := Js.numOr (cfgRetryDelayMs c) 1000.

Definition defaults (base : string) : Config :=
  {| baseUrl := base; cfgTimeout := None; cfgMaxRetries := None;
     cfgRetryDelayMs := None |}.

(** The observable behaviour of one call of [fetchWithRetry]: how it
    settles, and the delays it slept, in order, one before each retry. *)
Record Run := {
  outcome : Js.Error + Completion;
  delays : list Z;
}.

Definition settled (o : Js.Error + Completion) : Run :=
  {| outcome := o; delays := [] |}.

Definition after (delay : Z) (r : Run) : Run :=
  {| outcome := outcome r; delays := delay :: delays r |}.

(** [const isTimeout = error.name === "AbortError"] *)
Definition isTimeout (error : Js.Error) : bool :=
  bool_decide (Js.name error = "AbortError").

(** [const is500Error = error.message?.includes("500")] *)
Definition is500Error (error : Js.Error) : bool :=
  Js.messageIncludes "500" error.

(** The condition of the [if] in the [catch] block. *)
Definition retries (c : Config) (error : Js.Error) (attempt : nat) : bool :=
  (isTimeout error || is500Error error) && (Z.of_nat attempt <? maxRetries c)%Z.

Section RetryLoop.

(** The body of the [try] block of an adapter, on the outcome of its
    [fetch]: the value returned, or the error thrown. *)
Variable tryBlock : Attempt -> Js.Error + Completion.
Variable c : Config.
Variable fetch : nat -> Attempt.

(** [fetchWithRetry(_, attempt)]: the [try] block, then the [catch] block,
    which is the same text in both adapters. The recursion of the source
    is on [attempt + 1] and stops by [attempt < this.maxRetries]; [fuel]
    bounds its depth. *)
Fixpoint fetchWithRetryFuel (fuel attempt : nat) : option Run :=
  match fuel with
  | O => None
  | S fuel' =>
      match tryBlock (fetch attempt) with
      | inr result => Some (settled (inr result))
      | inl error =>
          if retries c error attempt then
            let delay := (retryDelayMs c * 2 ^ Z.of_nat attempt)%Z in
            after delay <$> fetchWithRetryFuel fuel' (attempt + 1)%nat
          else Some (settled (inl error))
      end
  end.

(** Enough fuel for every recursive call the guard allows. *)
Definition fetchWithRetry (attempt : nat) : option Run :=
  fetchWithRetryFuel (S (Z.to_nat (maxRetries c) - attempt)) attempt.

End RetryLoop.

(** [mockAdapter.ts] *)
Module MockLlmAdapter.

Definition tryBlock (a : Attempt) : Js.Error + Completion :=
  match a with
  | Rejects e => inl e
  | Responds status body =>
      if negb (ok status) then
        inl (Js.newError ("Mock LLM returned " +:+ pretty status))
      else
        match body with
        | NotJson e => inl e
        | JsonNull => inl Js.typeErrorNull
        | JsonObject _ completion => inr completion
        end
  end.

Definition request (c : Config) (content : string) : Request :=
  {| url := baseUrl c +:+ "/complete"; model := None; prompt := content |}.

Definition fetchWithRetry (c : Config) (backend : Backend)
    (content : string) (attempt : nat) : option Run :=
  Llm.fetchWithRetry tryBlock c (backend (request c content)) attempt.

Definition complete (c : Config) (backend : Backend)
    (messages : list Message) : option Run :=
  fetchWithRetry c backend (renderPrompt messages) 0.

End MockLlmAdapter.

(** [ollamaAdapter.ts] *)
Module OllamaLlmAdapter.

Definition tryBlock (a : Attempt) : Js.Error + Completion :=
  match a with
  | Rejects e => inl e
  | Responds status body =>
      if negb (ok status) then
        inl (Js.newError ("Ollama returned " +:+ pretty status))
      else
        match body with
        | NotJson e => inl e
        | JsonNull => inl Js.typeErrorNull
        | JsonObject response completion =>
            match Js.strOr response completion with
            | Some s =>
                if Js.truthy s then inr (Some s)
                else inl (Js.newError "Ollama response missing completion field")
            | None =>
                inl (Js.newError "Ollama response missing completion field")
            end
        end
  end.

Definition request (c : Config) (modelName : string)
    (messages : list Message) : Request :=
  {| url := baseUrl c +:+ "/api/generate"; model := Some modelName;
     prompt := renderPrompt messages |}.

Definition fetchWithRetry (c : Config) (modelName : string)
    (backend : Backend) (messages : list Message) (attempt : nat)
    : option Run :=
  Llm.fetchWithRetry tryBlock c (backend (request c modelName messages))
                     attempt.

Definition complete (c : Config) (modelName : string) (backend : Backend)
    (messages : list Message) : option Run :=
  fetchWithRetry c modelName backend messages 0.

End OllamaLlmAdapter.

(** The two implementations of the [LlmAdapter] interface. *)
Inductive Adapter :=
| Mock (c : Config)
| Ollama (c : Config) (modelName : string).

Definition config (a : Adapter) : Config :=
  match a with Mock c => c | Ollama c _ => c end.

Definition tryBlock (a : Adapter) : Attempt -> Js.Error + Completion :=
  match a with
  | Mock _ => MockLlmAdapter.tryBlock
  | Ollama _ _ => OllamaLlmAdapter.tryBlock
  end.

(** The request of a call, the same at every attempt. *)
Definition request (a : Adapter) (messages : list Message) : Request :=
  match a with
  | Mock c => MockLlmAdapter.request c (renderPrompt messages)
  | Ollama c modelName => OllamaLlmAdapter.request c modelName messages
  end.

(** [adapter.complete({ messages })], and the call it makes at a later
    attempt. *)
Definition attemptFrom (a : Adapter) (backend : Backend)
    (messages : list Message) (attempt : nat) : option Run :=
  match a with
  | Mock c =>
      MockLlmAdapter.fetchWithRetry c backend (renderPrompt messages) attempt
  | Ollama c modelName =>
      OllamaLlmAdapter.fetchWithRetry c modelName backend messages attempt
  end.

Definition complete (a : Adapter) (backend : Backend)
    (messages : list Message) : option Run :=
  match a with
  | Mock c => MockLlmAdapter.complete c backend messages
  | Ollama c modelName => OllamaLlmAdapter.complete c modelName backend messages
  end.

(** The error an adapter throws for a response that is not [ok]. *)
Definition statusError (a : Adapter) (status : nat) : Js.Error :=
  match a with
  | Mock _ => Js.newError ("Mock LLM returned " +:+ pretty status)
  | Ollama _ _ => Js.newError ("Ollama returned " +:+ pretty status)
  end.

(** The delay slept before the retry numbered [k] (0-indexed):
    [this.retryDelayMs * Math.pow(2, attempt)]. *)
Definition backoff (c : Config) (k : nat) : Z :=
  (retryDelayMs c * 2 ^ Z.of_nat k)%Z.

End Llm.

(** ** The relational store, as the service reaches it through Prisma *)

Module Conversation.
Record t := {
  id : string;
  title : string;
  createdAt : nat;
  lastMessageAt : option nat;
}.
End Conversation.

Module Message.
Record t := {
  id : string;
  conversationId : string;
  role : Llm.Role;
  content : string;
  createdAt : nat;
}.
End Message.

Module Prisma.

(** The two tables, rows in insertion order. *)
Record Db := {
  conversations : list Conversation.t;
  messages : list Message.t;
}.

(** The column defaults the database fills in for a new row:
    [@default(cuid())] and [@default(now())] (milliseconds). *)
Record Fresh := { cuid : string; now : nat }.

(** Errors of the client library (it is not part of the repository; the
    texts are those of its error codes). *)
Definition recordNotFound : Js.Error :=
  {| Js.zodIssues := None; Js.name := "PrismaClientKnownRequestError";
     Js.message := Some "An operation failed because it depends on one or more records that were required but not found." |}.

Definition foreignKeyFailed : Js.Error :=
  {| Js.zodIssues := None; Js.name := "PrismaClientKnownRequestError";
     Js.message := Some "Foreign key constraint failed on the field: Message_conversationId_fkey" |}.

Definition argumentMissing : Js.Error :=
  {| Js.zodIssues := None; Js.name := "PrismaClientValidationError";
     Js.message := Some "Argument content is missing." |}.

(** Comparison of identifiers ([lte], [gt]) is the order of strings. *)
Definition lte (a b : string) : bool := bool_decide (String.le a b).
Definition gt (a b : string) : bool := negb (lte a b).

(** [orderBy: { createdAt: 'desc' }] and ['asc']. The database leaves the
    order of rows with equal timestamps open; the model sorts by merging. *)
Definition newerFirst {A} (at_ : A -> nat) (a b : A) : Prop := at_ b <= at_ a.
Definition olderFirst {A} (at_ : A -> nat) (a b : A) : Prop := at_ a <= at_ b.

#[global] Instance newerFirst_dec {A} (at_ : A -> nat) :
  RelDecision (newerFirst at_).
Proof. intros a b. unfold newerFirst. apply _. Defined.

#[global] Instance olderFirst_dec {A} (at_ : A -> nat) :
  RelDecision (olderFirst at_).
Proof. intros a b. unfold olderFirst. apply _. Defined.

Inductive Order := asc | desc.

Definition orderBy {A} (at_ : A -> nat) (o : Order) (rows : list A) : list A :=
  match o with
  | desc => merge_sort (newerFirst at_) rows
  | asc => merge_sort (olderFirst at_) rows
  end.

(** [{ lte: x }] and [{ gt: x }] *)
Inductive IdFilter := Lte (x : string) | Gt (x : string).

(** The [where] of a message query; an undefined filter is ignored. *)
Record Where := {
  whereConversationId : string;
  whereId : option IdFilter;
}.

Definition matches (w : Where) (m : Message.t) : bool :=
  bool_decide (Message.conversationId m = whereConversationId w) &&
  match whereId w with
  | None => true
  | Some (Lte x) => lte (Message.id m) x
  | Some (Gt x) => gt (Message.id m) x
  end.

(** The messages a conversation owns. *)
Definition ofConversation (id : string) (db : Db) : list Message.t :=
  filter (fun m => Message.conversationId m = id) (messages db).

(** The invariant of the data model on the identifiers of the messages of
    a conversation: they are distinct (primary key) and not empty, and they
    sort as the creation times do. *)
Definition sortableIds (rows : list Message.t) : Prop :=
  NoDup (Message.id <$> rows)
  /\ Forall (fun m => Message.id m <> "") rows
  /\ Forall (fun a =>
               Forall (fun b =>
                         Message.createdAt a <= Message.createdAt b ->
                         String.le (Message.id a) (Message.id b)) rows) rows.

(** The same invariant for rows inserted later: their identifiers come after
    those of the rows already there. *)
Definition newerIds (rows arrived : list Message.t) : Prop :=
  Forall (fun m' =>
            Forall (fun m => ~ String.le (Message.id m') (Message.id m)) rows)
         arrived.

(** [a] is strictly newer than [b], by time and by identifier. *)
Definition strictlyNewer (a b : Message.t) : Prop :=
  Message.createdAt b < Message.createdAt a
  /\ String.le (Message.id b) (Message.id a)
  /\ Message.id b <> Message.id a.

(** [take: n]; absent: all rows. *)
Definition takeRows {A} (n : option nat) (rows : list A) : list A :=
  match n with Some k => take k rows | None => rows end.

(** [prisma.message.findMany({ where, orderBy: { createdAt }, take })] *)
Definition message_findMany (w : Where) (o : Order) (n : option nat)
    (db : Db) : list Message.t :=
  takeRows n (orderBy Message.createdAt o (filter (fun m => matches w m) (messages db))).

(** [prisma.conversation.findUnique({ where: { id } })] *)
Definition conversation_findUnique (id : string) (db : Db)
    : option Conversation.t :=
  find (fun c => bool_decide (Conversation.id c = id)) (conversations db).

(** [prisma.conversation.count()] *)
Definition conversation_count (db : Db) : nat := length (conversations db).

(** [prisma.conversation.create({ data: { title } })] *)
Definition conversation_create (fresh : Fresh) (title : string) (db : Db)
    : Db * Conversation.t :=
  let row := {| Conversation.id := cuid fresh; Conversation.title := title;
                Conversation.createdAt := now fresh;
                Conversation.lastMessageAt := None |} in
  ({| conversations := conversations db ++ [row]; messages := messages db |},
   row).

(** [prisma.conversation.delete({ where: { id } })]; the foreign key is
    [ON DELETE CASCADE]. *)
Definition conversation_delete (id : string) (db : Db) : Js.Error + Db :=
  match conversation_findUnique id db with
  | None => inl recordNotFound
  | Some _ =>
      inr {| conversations :=
               filter (fun c => Conversation.id c <> id) (conversations db);
             messages :=
               filter (fun m => Message.conversationId m <> id) (messages db) |}
  end.

(** [prisma.conversation.update({ where: { id }, data: { lastMessageAt } })] *)
Definition conversation_update (id : string) (lastMessageAt : nat) (db : Db)
    : Js.Error + Db :=
  match conversation_findUnique id db with
  | None => inl recordNotFound
  | Some _ =>
      inr {| conversations :=
               map (fun c =>
                      if bool_decide (Conversation.id c = id) then
                        {| Conversation.id := Conversation.id c;
                           Conversation.title := Conversation.title c;
                           Conversation.createdAt := Conversation.createdAt c;
                           Conversation.lastMessageAt := Some lastMessageAt |}
                      else c) (conversations db);
             messages := messages db |}
  end.

(** The row a [message.create] inserts, and the store with it. *)
Definition inserted (fresh : Fresh) (conversationId : string) (role : Llm.Role)
    (text : string) : Message.t :=
  {| Message.id := cuid fresh; Message.conversationId := conversationId;
     Message.role := role; Message.content := text;
     Message.createdAt := now fresh |}.

Definition withMessage (db : Db) (row : Message.t) : Db :=
  {| conversations := conversations db; messages := (messages db ++ [row])%list |}.

(** [prisma.message.create({ data: { conversationId, role, content } })];
    [content] is a required column, and [conversationId] a foreign key. *)
Definition message_create (fresh : Fresh) (conversationId : string)
    (role : Llm.Role) (content : option string) (db : Db)
    : Js.Error + Db * Message.t :=
  match content with
  | None => inl argumentMissing
  | Some text =>
      match conversation_findUnique conversationId db with
      | None => inl foreignKeyFailed
      | Some _ =>
          let row := inserted fresh conversationId role text in
          inr (withMessage db row, row)
      end
  end.

End Prisma.

(** ** [conversationService.ts] *)

Module ConversationService.

Import Prisma.

(** A message as the service returns it. [createdAt.toISOString()] is kept
    as the number of milliseconds it prints. *)
Record MessageJson := {
  id : string;
  role : Llm.Role;
  content : string;
  createdAt : nat;
}.

Definition toJson (msg : Message.t) : MessageJson :=
  {| id := Message.id msg; role := Message.role msg;
     content := Message.content msg; createdAt := Message.createdAt msg |}.

Record PageInfo := {
  nextCursor : option string;
  prevCursor : option string;
}.

Record ConversationPage := {
  pageId : string;
  pageTitle : string;
  pageMessages : list MessageJson;
  pageInfo : PageInfo;
}.

Record ConversationSummary := {
  summaryId : string;
  summaryTitle : string;
  summaryCreatedAt : nat;
  summaryLastMessageAt : option nat;
}.

Record SendResult := { message : MessageJson; reply : MessageJson }.

(** The instance field. *)
Record Service := { conversationCounter : nat }.

(** [private conversationCounter = 0] *)
Definition newService : Service := {| conversationCounter := 0 |}.

(** [initCounter] *)
Definition initCounter (db : Db) (svc : Service) : Service :=
  {| conversationCounter := conversation_count db |}.

(** [`Conversation #${this.conversationCounter}`] *)
Definition titleOf (counter : nat) : string :=
  "Conversation #" +:+ pretty counter.

(** [createConversation] *)
Definition createConversation (fresh : Fresh) (svc : Service) (db : Db)
    : Service * Db * Conversation.t :=
  let counter := S (conversationCounter svc) in
  let title := titleOf counter in
  let '(db', conversation) := conversation_create fresh title db in
  ({| conversationCounter := counter |}, db', conversation).

(** [listConversations] *)
Definition listConversations (db : Db) : list ConversationSummary :=
  map (fun conv =>
         let messages :=
           message_findMany {| whereConversationId := Conversation.id conv;
                               whereId := None |} desc (Some 1) db in
         {| summaryId := Conversation.id conv;
            summaryTitle := Conversation.title conv;
            summaryCreatedAt := Conversation.createdAt conv;
            summaryLastMessageAt := Message.createdAt <$> head messages |})
      (orderBy Conversation.createdAt desc (conversations db)).

(** [if (messagesCursor)]: an undefined or empty cursor is no cursor. *)
Definition given (messagesCursor : option string) : option string :=
  match messagesCursor with
  | Some c => if Js.truthy c then Some c else None
  | None => None
  end.

(** [getConversation] *)
Definition getConversation (id : string) (messagesCursor : option string)
    (limit : nat) (db : Db) : Js.Error + ConversationPage :=
  match conversation_findUnique id db with
  | None => inl (Js.newError "Conversation not found")
  | Some conversation =>
      let where_ := {| whereConversationId := id;
                       whereId := Lte <$> given messagesCursor |} in
      let messages := message_findMany where_ desc (Some (limit + 1)) db in
      let hasMore := (limit <? length messages)%nat in
      let pageMessages := if hasMore then take limit messages else messages in
      let prevCursor :=
        match given messagesCursor with
        | Some _ =>
            let olderMessages :=
              message_findMany
                {| whereConversationId := id;
                   whereId := Gt <$> (Message.id <$> last pageMessages) |}
                asc (Some 1) db in
            match head olderMessages with
            | Some m => given (Some (Message.id m))
            | None => None
            end
        | None => None
        end in
      inr {| pageId := Conversation.id conversation;
             pageTitle := Conversation.title conversation;
             pageMessages := map toJson (reverse pageMessages);
             pageInfo :=
               {| nextCursor :=
                    if hasMore then Message.id <$> messages !! limit else None;
                  prevCursor := prevCursor |} |}
  end.

(** [deleteConversation] *)
Definition deleteConversation (id : string) (db : Db) : Db * (Js.Error + unit) :=
  match conversation_delete id db with
  | inl e => (db, inl e)
  | inr db' => (db', inr tt)
  end.

(** The [LlmAdapter] interface: what awaiting [complete] gives. *)
Definition LlmAdapter := list Llm.Message -> Js.Error + Llm.Completion.

Definition toLlm (m : Message.t) : Llm.Message :=
  {| Llm.role := Message.role m; Llm.content := Message.content m |}.

(** The history [sendMessage] hands to the adapter: the messages stored
    before the call, oldest first, then the new user turn. *)
Definition historyFor (conversationId content : string) (db : Db)
    : list Llm.Message :=
  (map toLlm
       (message_findMany {| whereConversationId := conversationId;
                            whereId := None |} asc None db)
   ++ [ {| Llm.role := Llm.user; Llm.content := content |} ])%list.

(** [sendMessage]. [freshUser] and [freshReply] are the column defaults of
    the two rows it inserts. The store it leaves is returned also when it
    throws. *)
Definition sendMessage (llmAdapter : LlmAdapter) (freshUser freshReply : Fresh)
    (conversationId content : string) (db : Db)
    : Db * (Js.Error + SendResult) :=
  match conversation_findUnique conversationId db with
  | None => (db, inl (Js.newError "Conversation not found"))
  | Some conversation =>
      let history :=
        message_findMany {| whereConversationId := conversationId;
                            whereId := None |} asc None db in
      match message_create freshUser conversationId Llm.user (Some content) db with
      | inl e => (db, inl e)
      | inr (db1, userMessage) =>
          let messages :=
            (map toLlm history
             ++ [ {| Llm.role := Llm.user; Llm.content := content |} ])%list in
          match llmAdapter messages with
          | inl error => (db1, inl error)
          | inr response =>
              match message_create freshReply conversationId Llm.assistant
                                   response db1 with
              | inl error => (db1, inl error)
              | inr (db2, assistantMessage) =>
                  match conversation_update conversationId
                          (Message.createdAt assistantMessage) db2 with
                  | inl error => (db2, inl error)
                  | inr db3 =>
                      (db3, inr {| message := toJson userMessage;
                                   reply := toJson assistantMessage |})
                  end
              end
          end
      end
  end.

End ConversationService.

(** ** [middleware/errorHandler.ts] *)

Module Middleware.

Record ResponseJson := {
  error : string;
  details : option (list string);
  retryAfterMs : option nat;
  correlationId : option string;
}.

Record Response := { status : nat; json : ResponseJson }.

(** [errorHandler(err, req, res, next)], with [req.correlationId]. *)
Definition errorHandler (err : Js.Error) (reqCorrelationId : string)
    : Response :=
  match Js.zodIssues err with
  | Some errors =>
      {| status := 400;
         json := {| error := "Validation error"; details := Some errors;
                    retryAfterMs := None; correlationId := None |} |}
  | None =>
      if bool_decide (Js.name err = "AbortError")
         || Js.messageIncludes "timeout" err
      then
        {| status := 504;
           json := {| error := "Upstream error/timeout"; details := None;
                      retryAfterMs := Some 1000%nat; correlationId := None |} |}
      else if Js.messageIncludes "500" err then
        {| status := 502;
           json := {| error := "Upstream error/timeout"; details := None;
                      retryAfterMs := Some 1000%nat; correlationId := None |} |}
      else
        {| status := 500;
           json := {| error := "Internal server error"; details := None;
                      retryAfterMs := None;
                      correlationId := Some reqCorrelationId |} |}
  end.

End Middleware.

(** ** The server process *)

Module Server.

Import Prisma ConversationService.

(** The constructor calls [this.initCounter()] and does not await it: the
    process serves requests while that call is pending. The call has two
    steps, the store running [prisma.conversation.count()] and, later, the
    assignment [this.conversationCounter = count]. *)
Inductive Seeding :=
| Issued                    (* [count()] has not run yet *)
| Counted (snapshot : Db)   (* [count()] ran on [snapshot]; not yet assigned *)
| Seeded.                   (* the assignment is done *)

(** [index.ts]: a process holds one [ConversationService]; the store
    outlives it. *)
Record t := { service : Service; store : Db; seeding : Seeding }.

(** Start of a process: [new ConversationService(llmAdapter)]. The counter is
    the field initializer's 0 and [initCounter] is pending. *)
Definition boot (db : Db) : t :=
  {| service := newService; store := db; seeding := Issued |}.

(** What happens to the server: the two requests that touch the
    conversation table, a restart of the process, and the two steps of the
    pending [initCounter]. *)
Inductive Request :=
| Create (fresh : Fresh)       (* POST /api/conversations *)
| Delete (id : string)         (* DELETE /api/conversations/:id *)
| Restart
| CountRuns                    (* the store runs the pending [count()] *)
| CountAssigned.               (* [initCounter] resumes and assigns *)

Definition countRuns (s : t) : t :=
  match seeding s with
  | Issued =>
      {| service := service s; store := store s;
         seeding := Counted (store s) |}
  | _ => s
  end.

Definition countAssigned (s : t) : t :=
  match seeding s with
  | Counted snapshot =>
      {| service := initCounter snapshot (service s); store := store s;
         seeding := Seeded |}
  | _ => s
  end.

(** Serving requests in order; the titles of the conversations created are
    collected, oldest first. *)
Fixpoint serve (requests : list Request) (s : t) : t * list string :=
  match requests with
  | [] => (s, [])
  | Create fresh :: rest =>
      let '(svc, db, conversation) :=
        createConversation fresh (service s) (store s) in
      let '(s', titles) :=
        serve rest {| service := svc; store := db; seeding := seeding s |} in
      (s', Conversation.title conversation :: titles)
  | Delete id :: rest =>
      serve rest {| service := service s;
                    store := fst (deleteConversation id (store s));
                    seeding := seeding s |}
  | Restart :: rest => serve rest (boot (store s))
  | CountRuns :: rest => serve rest (countRuns s)
  | CountAssigned :: rest => serve rest (countAssigned s)
  end.

(** A process in which [initCounter] has finished before the first request. *)
Definition started (db : Db) : t := countAssigned (countRuns (boot db)).

Definition isCreate (r : Request) : bool :=
  match r with Create _ => true | _ => false end.

Definition isRestart (r : Request) : bool :=
  match r with Restart => true | _ => false end.

End Server.

(** ** A client that pages through a conversation *)

Module Client.

Import Prisma ConversationService.

(** Messages that other requests insert between two fetches. *)
Definition appendMessages (db : Db) (rows : list Message.t) : Db :=
  {| conversations := conversations db;
     messages := (messages db ++ rows)%list |}.

(** The first page is fetched without a cursor, every further page with the
    [nextCursor] of the page before, until a page has none. Before each
    further fetch the next batch of [arrivals] is inserted. The pages are
    collected in the order fetched; [None]: a fetch failed, or [fuel] fetches
    did not reach the last page. *)
Fixpoint followNext (fuel : nat) (id : string) (limit : nat)
    (messagesCursor : option string) (db : Db)
    (arrivals : list (list Message.t)) : option (list (list MessageJson)) :=
  match fuel with
  | O => None
  | S fuel' =>
      match getConversation id messagesCursor limit db with
      | inl _ => None
      | inr page =>
          match nextCursor (pageInfo page) with
          | None => Some [pageMessages page]
          | Some next =>
              cons (pageMessages page)
                <$> followNext fuel' id limit (Some next)
                      (appendMessages db (hd [] arrivals)) (tl arrivals)
          end
      end
  end.

(** The pages of [limit] rows cut from [rows] (newest first) from position [k]
    on, each page turned oldest first. *)
Fixpoint slices (fuel : nat) (limit k : nat) (rows : list Message.t)
    : list (list MessageJson) :=
  match fuel with
  | O => []
  | S fuel' =>
      map toJson (reverse (take limit (drop k rows)))
      :: (if (k + limit <? length rows)%nat
          then slices fuel' limit (k + limit) rows
          else [])
  end.

End Client.

(** ** Scenarios *)

Module Scenario.

Definition emptyDb : Prisma.Db :=
  {| Prisma.conversations := []; Prisma.messages := [] |}.

Definition fresh (id : string) (time : nat) : Prisma.Fresh :=
  {| Prisma.cuid := id; Prisma.now := time |}.

(** A process starts and [initCounter] finishes; three conversations are
    created, the first is deleted, the process restarts, [initCounter]
    finishes again, a fourth conversation is created. *)
Definition deleteThenRestart : list Server.Request :=
  [ Server.CountRuns; Server.CountAssigned;
    Server.Create (fresh "c1" 1); Server.Create (fresh "c2" 2);
    Server.Create (fresh "c3" 3); Server.Delete "c1"; Server.Restart;
    Server.CountRuns; Server.CountAssigned;
    Server.Create (fresh "c4" 4) ].

(** One run: deletions between the creations, no restart. *)
Definition deleteBetween : list Server.Request :=
  [ Server.Create (fresh "c1" 1); Server.Delete "c1";
    Server.Create (fresh "c2" 2); Server.Delete "c2";
    Server.Create (fresh "c3" 3) ].

(** A store with two conversations and no message. *)
Definition twoConversations : Prisma.Db :=
  {| Prisma.conversations :=
       [ {| Conversation.id := "c1"; Conversation.title := "Conversation #1";
            Conversation.createdAt := 1; Conversation.lastMessageAt := None |};
         {| Conversation.id := "c2"; Conversation.title := "Conversation #2";
            Conversation.createdAt := 2; Conversation.lastMessageAt := None |} ];
     Prisma.messages := [] |}.

(** A process starts on two stored conversations; a conversation is created
    after the store has counted and before [initCounter] has assigned, and
    one more after the assignment. *)
Definition createWhileSeeding : list Server.Request :=
  [ Server.CountRuns; Server.Create (fresh "c3" 3); Server.CountAssigned;
    Server.Create (fresh "c4" 4) ].

(** A store with one conversation and no message. *)
Definition oneConversation : Prisma.Db :=
  {| Prisma.conversations :=
       [ {| Conversation.id := "c1"; Conversation.title := "Conversation #1";
            Conversation.createdAt := 1; Conversation.lastMessageAt := None |} ];
     Prisma.messages := [] |}.

Definition row (id : string) (time : nat) (role : Llm.Role) (text : string)
    : Message.t :=
  {| Message.id := id; Message.conversationId := "c1"; Message.role := role;
     Message.content := text; Message.createdAt := time |}.

(** The conversation with three messages, and a fourth that arrives later. *)
Definition threeMessages : Prisma.Db :=
  {| Prisma.conversations := Prisma.conversations oneConversation;
     Prisma.messages :=
       [ row "m1" 10 Llm.user "Hello"; row "m2" 20 Llm.assistant "Hi there";
         row "m3" 30 Llm.user "Bye" ] |}.

Definition fourth : Message.t := row "m4" 40 Llm.assistant "Goodbye".

(** The conversation with three messages that the store stamped with the
    same millisecond. *)
Definition sameInstant : Prisma.Db :=
  {| Prisma.conversations := Prisma.conversations oneConversation;
     Prisma.messages :=
       [ row "m1" 10 Llm.user "Hello"; row "m2" 10 Llm.assistant "Hi there";
         row "m3" 10 Llm.user "Bye" ] |}.

Definition json (id : string) (time : nat) (role : Llm.Role) (text : string)
    : ConversationService.MessageJson :=
  {| ConversationService.id := id; ConversationService.role := role;
     ConversationService.content := text;
     ConversationService.createdAt := time |}.

(** An adapter whose call fails after its retries, and one that replies. *)
Definition failing : ConversationService.LlmAdapter :=
  fun _ => inl (Js.newError "Mock LLM returned 500").

Definition replying : ConversationService.LlmAdapter :=
  fun _ => inr (Some "Hi there").

Definition mockDefault : Llm.Adapter :=
  Llm.Mock (Llm.defaults "http://mock-llm:8080").

Definition ollamaDefault : Llm.Adapter :=
  Llm.Ollama (Llm.defaults "http://ollama:11434") "llama3".

Definition hiThere : Llm.Attempt :=
  Llm.Responds 200 (Llm.JsonObject (Some "Hi there") (Some "Hi there")).

(** A backend that answers 503 once and then replies. *)
Definition unavailableOnce : Llm.Backend :=
  fun _ attempt =>
    match attempt with
    | O => Llm.Responds 503 Llm.JsonNull
    | S _ => hiThere
    end.

(** The error of [response.json()] on the body text [Error 500]: the message
    quotes the text. *)
Definition syntaxError500 : Js.Error :=
  {| Js.zodIssues := None; Js.name := "SyntaxError";
     Js.message :=
       Some ("Unexpected token 'E', " +:+ String "034"%char "Error 500"
             +:+ String "034"%char " is not valid JSON") |}.

(** A backend that always answers 200 with that body. *)
Definition malformed500 : Llm.Backend :=
  fun _ _ => Llm.Responds 200 (Llm.NotJson syntaxError500).

(** A backend whose first attempt is aborted and whose second one replies. *)
Definition abortedOnce : Llm.Backend :=
  fun _ attempt =>
    match attempt with
    | O => Llm.Rejects Js.abortError
    | S _ => hiThere
    end.

(** A backend on which every attempt is aborted. *)
Definition alwaysAborted : Llm.Backend :=
  fun _ _ => Llm.Rejects Js.abortError.

(** A backend whose 200 answer is an object without any of the fields the
    adapters read. *)
Definition emptyObject : Llm.Backend :=
  fun _ _ => Llm.Responds 200 (Llm.JsonObject None None).

End Scenario.

(** ** The adapter factory and the configuration *)

(** [types.ts]: [LlmConfig]. [provider] is whatever string the environment
    holds. *)
Module LlmConfig.
Record t := {
  provider : string;
  mockBaseUrl : option string;
  ollamaBaseUrl : option string;
  ollamaModel : option string;
  timeout : option Z;
  maxRetries : option Z;
  retryDelayMs : option Z;
}.
End LlmConfig.

Module Factory.

(** [services/llm/index.ts]: [createLlmAdapter]. [!config.mockBaseUrl] holds
    for an undefined and for an empty setting. *)
Definition createLlmAdapter (config : LlmConfig.t) : Js.Error + Llm.Adapter :=
  if bool_decide (LlmConfig.provider config = "mock") then
    match LlmConfig.mockBaseUrl config with
    | Some url =>
        if negb (Js.truthy url) then
          inl (Js.newError "MOCK_LLM_BASE_URL is required for mock provider")
        else
          inr (Llm.Mock
                 {| Llm.baseUrl := url;
                    Llm.cfgTimeout := LlmConfig.timeout config;
                    Llm.cfgMaxRetries := LlmConfig.maxRetries config;
                    Llm.cfgRetryDelayMs := LlmConfig.retryDelayMs config |})
    | None =>
        inl (Js.newError "MOCK_LLM_BASE_URL is required for mock provider")
    end
  else if bool_decide (LlmConfig.provider config = "ollama") then
    match LlmConfig.ollamaBaseUrl config, LlmConfig.ollamaModel config with
    | Some url, Some modelName =>
        if negb (Js.truthy url) || negb (Js.truthy modelName) then
          inl (Js.newError
                 "OLLAMA_BASE_URL and OLLAMA_MODEL are required for ollama provider")
        else
          inr (Llm.Ollama
                 {| Llm.baseUrl := url;
                    Llm.cfgTimeout := LlmConfig.timeout config;
                    Llm.cfgMaxRetries := LlmConfig.maxRetries config;
                    Llm.cfgRetryDelayMs := LlmConfig.retryDelayMs config |}
                 modelName)
    | _, _ =>
        inl (Js.newError
               "OLLAMA_BASE_URL and OLLAMA_MODEL are required for ollama provider")
    end
  else
    inl (Js.newError ("Unknown LLM provider: " +:+ LlmConfig.provider config)).

End Factory.

(** [utils/config.ts] *)
Module Config.

(** [process.env]: a variable is undefined or a string. *)
Definition Env := string -> option string.

(** [process.env.X || d] *)
Definition orDefault (x : option string) (d : string) : string :=
  match x with
  | Some s => if Js.truthy s then s else d
  | None => d
  end.

Section Parse.

(** [parseInt(s, 10)] of the JavaScript runtime; [None] is NaN. *)
Variable parseInt : string -> option Z.

(** [config.llm] *)
Definition llm (env : Env) : LlmConfig.t :=
  {| LlmConfig.provider := orDefault (env "LLM_PROVIDER") "mock";
     LlmConfig.mockBaseUrl :=
       Some (orDefault (env "MOCK_LLM_BASE_URL") "http://mock-llm:8080");
     LlmConfig.ollamaBaseUrl :=
       Some (orDefault (env "OLLAMA_BASE_URL") "http://ollama:11434");
     LlmConfig.ollamaModel := Some (orDefault (env "OLLAMA_MODEL") "llama3");
     LlmConfig.timeout := parseInt (orDefault (env "LLM_TIMEOUT_MS") "12000");
     LlmConfig.maxRetries := parseInt (orDefault (env "LLM_MAX_RETRIES") "2");
     LlmConfig.retryDelayMs :=
       parseInt (orDefault (env "LLM_RETRY_DELAY_MS") "1000") |}.

End Parse.

End Config.

(** ** [routes/conversations.ts] *)

Module Routes.

Import Prisma ConversationService.

(** What a handler does with the response: [res.status(s).json(payload)]
    (or [res.json], status 200, or [res.status(204).send()]), or
    [next(error)], which the error handler answers. *)
Inductive Answer (A : Type) :=
| Replied (status : nat) (payload : A)
| Failed (response : Middleware.Response).

Arguments Replied {A} status payload.
Arguments Failed {A} response.

(** A [ZodError] (of the validation library) with its issues. The error
    handler answers it before it reads a name or a message. *)
Definition zodError (issues : list string) : Js.Error :=
  {| Js.zodIssues := Some issues; Js.name := "ZodError"; Js.message := None |}.

(** [sendMessageSchema.parse(req.body)], with
    [sendMessageSchema = z.object({ content: z.string().min(1) })]. The body
    is seen through its [content]; [None]: there is none, or it is not a
    string. *)
Definition parse (content : option string) : Js.Error + string :=
  match content with
  | None => inl (zodError ["Required"])
  | Some text =>
      if (1 <=? String.length text)%nat then inr text
      else inl (zodError ["String must contain at least 1 character(s)"])
  end.

(** [router.post('/:id/messages', ...)] *)
Definition postMessage (llmAdapter : LlmAdapter) (freshUser freshReply : Fresh)
    (id : string) (content : option string) (correlationId : string) (db : Db)
    : Db * Answer SendResult :=
  match parse content with
  | inl error => (db, Failed (Middleware.errorHandler error correlationId))
  | inr text =>
      match sendMessage llmAdapter freshUser freshReply id text db with
      | (db', inr result) => (db', Replied 200 result)
      | (db', inl error) =>
          (db', Failed (Middleware.errorHandler error correlationId))
      end
  end.

(** [router.delete('/:id', ...)] *)
Definition deleteOne (id correlationId : string) (db : Db) : Db * Answer unit :=
  match deleteConversation id db with
  | (db', inr _) => (db', Replied 204 tt)
  | (db', inl error) =>
      (db', Failed (Middleware.errorHandler error correlationId))
  end.

(** [router.get('/', ...)] *)
Definition getAll (db : Db) : Answer (list ConversationSummary) :=
  Replied 200 (listConversations db).

End Routes.

(** ** Invariants of the store *)

Module Invariant.

Import Prisma.

(** Every message belongs to a stored conversation (the foreign key). *)
Definition integrity (db : Db) : Prop :=
  Forall (fun m => is_Some (conversation_findUnique (Message.conversationId m) db))
         (messages db).

End Invariant.

(** ** [frontend/src/api.ts] *)

Module Api.

(** The body of a response as [response.json()] gives it, seen through the
    [error] property the client reads. *)
Inductive Body :=
| NotJson                         (* [response.json()] rejects *)
| JsonNull                        (* the JSON value [null] *)
| JsonObject (error : option string).

(** The response of [fetch]. *)
Record HttpResponse := { status : nat; body : Body }.

(** What [fetchApi] throws: an [ApiError]; the [TypeError] of reading
    [error.error] when the body of a failed response is [null]; or the
    rejection of [response.json()] on a body that is not JSON. *)
Inductive Thrown :=
| ApiError (status : nat) (message : string)
| PropertyOfNull
| BodyNotJson.

(** What [fetchApi] returns: [undefined] or the parsed body. *)
Inductive Returned :=
| Undefined
| Parsed (b : Body).

(** [error.error || 'Request failed'] *)
Definition errorText (error : option string) : string :=
  match error with
  | Some text => if Js.truthy text then text else "Request failed"
  | None => "Request failed"
  end.

(** [fetchApi], on the response its [fetch] resolves with. *)
Definition fetchApi (response : HttpResponse) : Thrown + Returned :=
  if negb (Llm.ok (status response)) then
    match body response with
    | NotJson => inl (ApiError (status response) "Unknown error")
    | JsonNull => inl PropertyOfNull
    | JsonObject error => inl (ApiError (status response) (errorText error))
    end
  else if bool_decide (status response = 204) then inr Undefined
  else
    match body response with
    | NotJson => inl BodyNotJson
    | b => inr (Parsed b)
    end.

(** [res.status(s).json(body)] of the error handler, as the client receives
    it. *)
Definition received (r : Middleware.Response) : HttpResponse :=
  {| status := Middleware.status r;
     body := JsonObject (Some (Middleware.error (Middleware.json r))) |}.

End Api.

(** ** Measures of a run *)

Module Timing.

(** The time a call spends sleeping between its attempts. *)
Definition totalWait (run : Llm.Run) : Z := foldr Z.add 0%Z (Llm.delays run).

(** The attempt throws and the [catch] block retries. *)
Definition retriedAt (tryBlock : Llm.Attempt -> Js.Error + Llm.Completion)
    (c : Llm.Config) (fetch : nat -> Llm.Attempt) (attempt : nat) : Prop :=
  exists error,
    tryBlock (fetch attempt) = inl error
    /\ Llm.retries c error attempt = true.

(** The attempt is one the [catch] block does not retry: it returns, or it
    throws with the condition of the [if] false. *)
Definition final (tryBlock : Llm.Attempt -> Js.Error + Llm.Completion)
    (c : Llm.Config) (fetch : nat -> Llm.Attempt) (attempt : nat) : Prop :=
  match tryBlock (fetch attempt) with
  | inr _ => True
  | inl error => Llm.retries c error attempt = false
  end.

End Timing.

(** ** The adapters on bodies of any shape *)

Module Untyped.

(** [(await response.json()) as {...}] checks nothing: at run time a field of
    the body holds any JSON value, which the adapters test for truthiness and
    pass on. Of a value that is not a string only its truthiness is kept. *)
Inductive Value :=
| Undefined                 (* the field is absent *)
| Text (s : string)
| Other (truthy : bool).    (* null, a boolean, a number, an array, an object *)

Definition truthy (v : Value) : bool :=
  match v with
  | Undefined => false
  | Text s => Js.truthy s
  | Other b => b
  end.

(** [a || b] *)
Definition or (a b : Value) : Value := if truthy a then a else b.

(** The parsed body: a body that is not [null] is seen through its properties
    [response] and [completion] (both absent on a string, a number, a boolean
    or an array). *)
Inductive Body :=
| NotJson (e : Js.Error)
| JsonNull
| JsonValue (response completion : Value).

Inductive Attempt :=
| Rejects (e : Js.Error)
| Responds (status : nat) (body : Body).

Definition Backend := Llm.Request -> nat -> Attempt.

Record Run := {
  outcome : Js.Error + Value;
  delays : list Z;
}.

Definition settled (o : Js.Error + Value) : Run :=
  {| outcome := o; delays := [] |}.

Definition after (delay : Z) (r : Run) : Run :=
  {| outcome := outcome r; delays := delay :: delays r |}.

(** The [try] block of [MockLlmAdapter.fetchWithRetry]. *)
Definition mockTry (a : Attempt) : Js.Error + Value :=
  match a with
  | Rejects e => inl e
  | Responds status body =>
      if negb (Llm.ok status) then
        inl (Js.newError ("Mock LLM returned " +:+ pretty status))
      else
        match body with
        | NotJson e => inl e
        | JsonNull => inl Js.typeErrorNull
        | JsonValue _ completion => inr completion
        end
  end.

(** The [try] block of [OllamaLlmAdapter.fetchWithRetry]. *)
Definition ollamaTry (a : Attempt) : Js.Error + Value :=
  match a with
  | Rejects e => inl e
  | Responds status body =>
      if negb (Llm.ok status) then
        inl (Js.newError ("Ollama returned " +:+ pretty status))
      else
        match body with
        | NotJson e => inl e
        | JsonNull => inl Js.typeErrorNull
        | JsonValue response completion =>
            let completion := or response completion in
            if negb (truthy completion) then
              inl (Js.newError "Ollama response missing completion field")
            else inr completion
        end
  end.

Section RetryLoop.

Variable tryBlock : Attempt -> Js.Error + Value.
Variable c : Llm.Config.
Variable fetch : nat -> Attempt.

(** [fetchWithRetry(_, attempt)], as [Llm.fetchWithRetryFuel]. *)
Fixpoint fetchWithRetryFuel (fuel attempt : nat) : option Run :=
  match fuel with
  | O => None
  | S fuel' =>
      match tryBlock (fetch attempt) with
      | inr result => Some (settled (inr result))
      | inl error =>
          if Llm.retries c error attempt then
            let delay := (Llm.retryDelayMs c * 2 ^ Z.of_nat attempt)%Z in
            after delay <$> fetchWithRetryFuel fuel' (attempt + 1)%nat
          else Some (settled (inl error))
      end
  end.

Definition fetchWithRetry (attempt : nat) : option Run :=
  fetchWithRetryFuel (S (Z.to_nat (Llm.maxRetries c) - attempt)) attempt.

End RetryLoop.

(** [complete] of the two adapters. *)
Definition mockComplete (c : Llm.Config) (backend : Backend)
    (messages : list Llm.Message) : option Run :=
  fetchWithRetry mockTry c
    (backend (Llm.MockLlmAdapter.request c (Llm.renderPrompt messages))) 0.

Definition ollamaComplete (c : Llm.Config) (modelName : string)
    (backend : Backend) (messages : list Llm.Message) : option Run :=
  fetchWithRetry ollamaTry c
    (backend (Llm.OllamaLlmAdapter.request c modelName messages)) 0.

(** The bodies of the declared type, whose fields are strings when present,
    among all bodies. *)
Definition ofField (field : option string) : Value :=
  match field with
  | Some s => Text s
  | None => Undefined
  end.

Definition ofBody (body : Llm.Body) : Body :=
  match body with
  | Llm.NotJson e => NotJson e
  | Llm.JsonNull => JsonNull
  | Llm.JsonObject response completion =>
      JsonValue (ofField response) (ofField completion)
  end.

Definition ofAttempt (a : Llm.Attempt) : Attempt :=
  match a with
  | Llm.Rejects e => Rejects e
  | Llm.Responds status body => Responds status (ofBody body)
  end.

Definition ofOutcome (o : Js.Error + Llm.Completion) : Js.Error + Value :=
  match o with
  | inl e => inl e
  | inr completion => inr (ofField completion)
  end.

Definition ofRun (run : Llm.Run) : Run :=
  {| outcome := ofOutcome (Llm.outcome run); delays := Llm.delays run |}.

(** A backend whose answer carries a number where the text is expected. *)
Definition numberBody : Backend :=
  fun _ _ => Responds 200 (JsonValue (Other true) Undefined).

End Untyped.

(** ** Further scenarios *)

Module Cases.

(** A backend that answers 500 twice and then replies. *)
Definition failsTwice : Llm.Backend :=
  fun _ attempt =>
    match attempt with
    | 0 | 1 => Llm.Responds 500 Llm.JsonNull
    | _ => Scenario.hiThere
    end.

(** A backend that always answers 500. *)
Definition alwaysFails : Llm.Backend :=
  fun _ _ => Llm.Responds 500 Llm.JsonNull.

(** An adapter configured with no retries at all. *)
Definition noRetries : Llm.Adapter :=
  Llm.Mock {| Llm.baseUrl := "http://mock-llm:8080"; Llm.cfgTimeout := None;
              Llm.cfgMaxRetries := Some 0%Z; Llm.cfgRetryDelayMs := None |}.

(** An environment with nothing set, and one that selects a provider that
    does not exist. *)
Definition noEnv : Config.Env := fun _ => None.

Definition otherProvider : Config.Env :=
  fun x => if bool_decide (x = "LLM_PROVIDER") then Some "openai" else None.

(** A [parseInt] for the scenarios: it knows the three default texts. *)
Definition parseDefaults (s : string) : option Z :=
  if bool_decide (s = "12000") then Some 12000%Z
  else if bool_decide (s = "2") then Some 2%Z
  else if bool_decide (s = "1000") then Some 1000%Z
  else None.

End Cases.

(** * Properties *)

(** ** The retry loop *)

Section RetryLoopFacts.

Import Llm.

Variable tryBlock : Attempt -> Js.Error + Completion.
Variable c : Config.
Variable fetch : nat -> Attempt.

Local Abbreviation loop := (Llm.fetchWithRetry tryBlock c fetch).

(** The recursion equation of the source. *)
Lemma fetchWithRetry_unfold (attempt : nat) :
  loop attempt =
  match tryBlock (fetch attempt) with
  | inr result => Some (settled (inr result))
  | inl error =>
      if retries c error attempt
      then after (backoff c attempt) <$> loop (attempt + 1)
      else Some (settled (inl error))
  end.
Proof.
  unfold Llm.fetchWithRetry at 1. cbn [fetchWithRetryFuel].
  destruct (tryBlock (fetch attempt)) as [error|result]; [|done].
  destruct (retries c error attempt) eqn:Hretry; [|done].
  unfold retries in Hretry. apply andb_true_iff in Hretry as [_ Hlt].
  apply Z.ltb_lt in Hlt. unfold Llm.fetchWithRetry, backoff.
  replace (Z.to_nat (maxRetries c) - attempt)
    with (S (Z.to_nat (maxRetries c) - (attempt + 1))) by lia.
  done.
Qed.

(** The loop always settles: the fuel never runs out. *)
Lemma fetchWithRetry_settles (attempt : nat) : is_Some (loop attempt).
Proof.
  remember (Z.to_nat (maxRetries c) - attempt) as budget eqn:Hbudget.
  revert attempt Hbudget.
  induction budget as [|budget IH]; intros attempt Hbudget;
    rewrite fetchWithRetry_unfold;
    destruct (tryBlock (fetch attempt)) as [error|result]; try done;
    destruct (retries c error attempt) eqn:Hretry; try done;
    unfold retries in Hretry; apply andb_true_iff in Hretry as [_ Hlt];
    apply Z.ltb_lt in Hlt.
  - lia.
  - destruct (IH (attempt + 1)) as [run Hrun]; [lia|].
    rewrite Hrun. done.
Qed.

(** What a settled run looks like, from any attempt on. *)
Lemma fetchWithRetry_run (attempt : nat) (run : Run) :
  loop attempt = Some run ->
  length (delays run) <= Z.to_nat (maxRetries c) - attempt
  /\ delays run = map (backoff c) (seq attempt (length (delays run)))
  /\ tryBlock (fetch (attempt + length (delays run))) = outcome run.
Proof.
  remember (Z.to_nat (maxRetries c) - attempt) as budget eqn:Hbudget.
  revert attempt run Hbudget.
  induction budget as [|budget IH]; intros attempt run Hbudget;
    rewrite fetchWithRetry_unfold;
    destruct (tryBlock (fetch attempt)) as [error|result] eqn:Htry.
  all: try (intros [= <-]; cbn; rewrite Nat.add_0_r; split_and!; [lia|done|done]).
  all: destruct (retries c error attempt) eqn:Hretry.
  all: try (intros [= <-]; cbn; rewrite Nat.add_0_r; split_and!; [lia|done|done]).
  all: unfold retries in Hretry; apply andb_true_iff in Hretry as [_ Hlt];
    apply Z.ltb_lt in Hlt.
  - lia.
  - destruct (loop (attempt + 1)) as [run'|] eqn:Hrun'; [|done].
    intros [= <-]. destruct (IH (attempt + 1) run') as (Hlen & Hdelays & Hlast);
      [lia|done|].
    cbn. split_and!.
    + lia.
    + rewrite Hdelays at 1. by rewrite Nat.add_1_r.
    + rewrite <- Hlast. f_equal. f_equal. lia.
Qed.

(** A run that ends on an error that would be retried has used all the
    retries. *)
Lemma fetchWithRetry_exhausted (attempt : nat) (run : Run) (error : Js.Error) :
  loop attempt = Some run ->
  outcome run = inl error ->
  isTimeout error || is500Error error = true ->
  (Z.of_nat attempt <= maxRetries c)%Z ->
  Z.of_nat (attempt + length (delays run)) = maxRetries c.
Proof.
  remember (Z.to_nat (maxRetries c) - attempt) as budget eqn:Hbudget.
  revert attempt run Hbudget.
  induction budget as [|budget IH]; intros attempt run Hbudget;
    rewrite fetchWithRetry_unfold;
    destruct (tryBlock (fetch attempt)) as [err|result] eqn:Htry.
  all: try (intros [= <-]; cbn; done).
  all: destruct (retries c err attempt) eqn:Hretry.
  all: unfold retries in Hretry.
  all: try (intros [= <-]; cbn; intros [= ->] Hkind Hle;
            rewrite Hkind in Hretry; cbn in Hretry;
            apply Z.ltb_ge in Hretry; lia).
  all: apply andb_true_iff in Hretry as [_ Hlt]; apply Z.ltb_lt in Hlt.
  - lia.
  - destruct (loop (attempt + 1)) as [run'|] eqn:Hrun'; [|done].
    intros [= <-]. cbn. intros Hout Hkind Hle.
    specialize (IH (attempt + 1) run'). rewrite Hrun' in IH.
    rewrite <- IH; [lia|lia|done|done|done|lia].
Qed.

End RetryLoopFacts.

(** ** The adapters *)

Section AdapterFacts.

Import Llm.

Lemma tryBlock_not_ok (a : Adapter) (status : nat) (body : Body) :
  ok status = false ->
  tryBlock a (Responds status body) = inl (statusError a status).
Proof. intros Hok. destruct a; cbn; by rewrite Hok. Qed.

(** Among the three-digit statuses, the text of the error contains "500"
    for status 500 only. *)
Lemma status_text_500 (a : Adapter) (status : nat) :
  100 <= status <= 999 ->
  is500Error (statusError a status) = bool_decide (status = 500).
Proof.
  intros Hrange.
  assert (forallb (fun s =>
            bool_decide (Js.includes "500" ("Mock LLM returned " +:+ pretty s)
                         = bool_decide (s = 500))
            && bool_decide (Js.includes "500" ("Ollama returned " +:+ pretty s)
                            = bool_decide (s = 500)))
            (seq 100 900) = true) as Hall by (vm_compute; reflexivity).
  rewrite forallb_forall in Hall.
  specialize (Hall status). rewrite in_seq in Hall.
  apply andb_true_iff in Hall as [Hmock Hollama]; [|lia].
  apply bool_decide_eq_true in Hmock, Hollama.
  destruct a; done.
Qed.

Lemma statusError_not_timeout (a : Adapter) (status : nat) :
  isTimeout (statusError a status) = false.
Proof. by destruct a. Qed.

Lemma attemptFrom_loop (a : Adapter) (backend : Backend)
    (messages : list Message) (attempt : nat) :
  attemptFrom a backend messages attempt =
  Llm.fetchWithRetry (tryBlock a) (config a) (backend (request a messages))
                     attempt.
Proof. by destruct a. Qed.

Lemma complete_loop (a : Adapter) (backend : Backend)
    (messages : list Message) :
  complete a backend messages = attemptFrom a backend messages 0.
Proof. by destruct a. Qed.

(** One step of an adapter: what the attempt numbered [attempt] leads to. *)
Lemma attemptFrom_unfold (a : Adapter) (backend : Backend)
    (messages : list Message) (attempt : nat) :
  attemptFrom a backend messages attempt =
  match tryBlock a (backend (request a messages) attempt) with
  | inr result => Some (settled (inr result))
  | inl error =>
      if retries (config a) error attempt
      then after (backoff (config a) attempt)
             <$> attemptFrom a backend messages (attempt + 1)
      else Some (settled (inl error))
  end.
Proof. rewrite !attemptFrom_loop. apply fetchWithRetry_unfold. Qed.

End AdapterFacts.

Example includes_500 :
  Js.includes "500" "Mock LLM returned 500" = true
  /\ Js.includes "500" "Mock LLM returned 503" = false.
Proof. split; reflexivity. Qed.

(** C3, as stated, fails: a 503 answer is a 5xx server error and retries are
    left (attempt 0, two allowed), yet both adapters throw it at once, without
    a retry. *)
Lemma server_error_503_is_not_retried :
  Llm.ok 503 = false
  /\ (Z.of_nat 0 < Llm.maxRetries (Llm.config Scenario.mockDefault))%Z
  /\ Llm.complete Scenario.mockDefault Scenario.unavailableOnce [] =
     Some {| Llm.outcome := inl (Js.newError "Mock LLM returned 503");
             Llm.delays := [] |}
  /\ Llm.complete Scenario.ollamaDefault Scenario.unavailableOnce [] =
     Some {| Llm.outcome := inl (Js.newError "Ollama returned 503");
             Llm.delays := [] |}.
Proof. split_and!; vm_compute; reflexivity. Qed.

(** The test of the [catch] block, on any error the [try] block throws. *)
Lemma catch_block_retries (a : Llm.Adapter) (backend : Llm.Backend)
    (messages : list Llm.Message) (attempt : nat) (error : Js.Error) :
  Llm.tryBlock a (backend (Llm.request a messages) attempt) = inl error ->
  Llm.attemptFrom a backend messages attempt =
  if (Llm.isTimeout error || Llm.is500Error error)
     && (Z.of_nat attempt <? Llm.maxRetries (Llm.config a))%Z
  then Llm.after (Llm.backoff (Llm.config a) attempt)
         <$> Llm.attemptFrom a backend messages (attempt + 1)
  else Some {| Llm.outcome := inl error; Llm.delays := [] |}.
Proof. intros Hthrown. by rewrite attemptFrom_unfold, Hthrown. Qed.

(** The test is on the text of the message, so it also holds for an error
    that is not an HTTP failure when its message happens to contain "500":
    the parse error of a 200 answer whose body quotes that text is retried
    until the retries are used up. *)
Lemma parse_error_quoting_500_is_retried :
  Llm.complete Scenario.mockDefault Scenario.malformed500 [] =
  Some {| Llm.outcome := inl Scenario.syntaxError500;
          Llm.delays := [1000%Z; 2000%Z] |}.
Proof. vm_compute. reflexivity. Qed.

(** C3, amended: an attempt that timed out ([fetch] rejects with the
    [AbortError] of the attempt's controller) is retried exactly when
    [attempt < maxRetries]; an attempt answered with a failing HTTP status is
    retried exactly when the status is 500 and [attempt < maxRetries], so
    every other failing status, the other 5xx included, is thrown at once;
    the retry is the call for [attempt + 1] after the backoff delay. A 2xx
    answer of the Ollama backend without a usable completion is thrown at
    once as well. *)
Theorem retried_on_timeout_or_status_500 (a : Llm.Adapter)
    (backend : Llm.Backend) (messages : list Llm.Message) (attempt : nat) :
  let fetched := backend (Llm.request a messages) attempt in
  let retriesLeft := (Z.of_nat attempt <? Llm.maxRetries (Llm.config a))%Z in
  let retry :=
    Llm.after (Llm.backoff (Llm.config a) attempt)
      <$> Llm.attemptFrom a backend messages (attempt + 1) in
  let thrown error := Some {| Llm.outcome := inl error; Llm.delays := [] |} in
  (forall error,
     fetched = Llm.Rejects error ->
     Js.name error = "AbortError" ->
     Llm.attemptFrom a backend messages attempt
     = if retriesLeft then retry else thrown error)
  /\ (forall status body,
        fetched = Llm.Responds status body ->
        Llm.ok status = false ->
        100 <= status <= 999 ->
        Llm.attemptFrom a backend messages attempt
        = if bool_decide (status = 500) && retriesLeft
          then retry
          else thrown (Llm.statusError a status))
  /\ (forall c modelName status response completion,
        a = Llm.Ollama c modelName ->
        fetched = Llm.Responds status (Llm.JsonObject response completion) ->
        Llm.ok status = true ->
        Js.strOr response completion = None
        \/ Js.strOr response completion = Some "" ->
        Llm.attemptFrom a backend messages attempt
        = thrown (Js.newError "Ollama response missing completion field")).
Proof.
  intros fetched retriesLeft retry thrown. split_and!.
  - intros error Hfetched Hname.
    rewrite (catch_block_retries a backend messages attempt error).
    + unfold Llm.isTimeout. by rewrite bool_decide_eq_true_2.
    + fold fetched. rewrite Hfetched. by destruct a.
  - intros status body Hfetched Hok Hrange.
    rewrite (catch_block_retries a backend messages attempt
               (Llm.statusError a status)).
    + by rewrite statusError_not_timeout, status_text_500.
    + fold fetched. rewrite Hfetched. by apply tryBlock_not_ok.
  - intros c modelName status response completion -> Hfetched Hok Hfalsy.
    rewrite (catch_block_retries _ backend messages attempt
               (Js.newError "Ollama response missing completion field")).
    + done.
    + fold fetched. rewrite Hfetched. cbn. rewrite Hok. cbn.
      by destruct Hfalsy as [-> | ->].
Qed.

Lemma retried_on_timeout_or_status_500_witness :
  Llm.attemptFrom Scenario.mockDefault Scenario.unavailableOnce [] 0 =
  Some {| Llm.outcome := inl (Js.newError "Mock LLM returned 503");
          Llm.delays := [] |}.
Proof.
  refine (eq_trans
    (proj1 (proj2 (retried_on_timeout_or_status_500 Scenario.mockDefault
                     Scenario.unavailableOnce [] 0))
       503 Llm.JsonNull _ _ _) _).
  - reflexivity.
  - reflexivity.
  - lia.
  - reflexivity.
Defined.

(** [complete] takes the messages and nothing else; the one abort there is,
    that of the attempt's own controller, counts as a timeout: here the first
    attempt is aborted and the call resolves, one backoff delay later, with
    the reply of the second attempt. *)
Lemma aborted_attempt_is_retried :
  Llm.complete Scenario.mockDefault Scenario.abortedOnce [] =
  Some {| Llm.outcome := inr (Some "Hi there"); Llm.delays := [1000%Z] |}
  /\ Llm.complete Scenario.ollamaDefault Scenario.abortedOnce [] =
     Some {| Llm.outcome := inr (Some "Hi there"); Llm.delays := [1000%Z] |}.
Proof. split; vm_compute; reflexivity. Qed.

(** X25: an attempt that is aborted by the adapter's own timeout (it rejects
    with an [AbortError]) is retried after the backoff delay while
    [attempt < maxRetries]; a call of [complete] fails with an [AbortError]
    only when all the retries have been used. *)
Theorem abort_is_retried_until_exhausted (a : Llm.Adapter)
    (backend : Llm.Backend) (messages : list Llm.Message) (attempt : nat)
    (error : Js.Error) :
  backend (Llm.request a messages) attempt = Llm.Rejects error ->
  Js.name error = "AbortError" ->
  ((Z.of_nat attempt < Llm.maxRetries (Llm.config a))%Z ->
   Llm.attemptFrom a backend messages attempt =
   Llm.after (Llm.backoff (Llm.config a) attempt)
     <$> Llm.attemptFrom a backend messages (attempt + 1))
  /\ (forall run failure,
        Llm.complete a backend messages = Some run ->
        Llm.outcome run = inl failure ->
        Js.name failure = "AbortError" ->
        Z.of_nat (length (Llm.delays run)) = Z.max 0 (Llm.maxRetries (Llm.config a))).
Proof.
  intros Hfetch Hname. split.
  - intros Hlt. rewrite attemptFrom_unfold, Hfetch.
    replace (Llm.tryBlock a (Llm.Rejects error)) with
      (inl error : Js.Error + Llm.Completion) by (by destruct a).
    unfold Llm.retries, Llm.isTimeout.
    rewrite bool_decide_eq_true_2 by done.
    apply Z.ltb_lt in Hlt. by rewrite Hlt.
  - intros run failure Hrun Hout Hfail.
    rewrite complete_loop, attemptFrom_loop in Hrun.
    destruct (Z.le_gt_cases 0 (Llm.maxRetries (Llm.config a))) as [Hnonneg|Hneg].
    + rewrite Z.max_r by done.
      rewrite <- (fetchWithRetry_exhausted _ _ _ 0 run failure Hrun Hout);
        [done| |done].
      unfold Llm.isTimeout. by rewrite bool_decide_eq_true_2.
    + rewrite Z.max_l by lia.
      apply fetchWithRetry_run in Hrun as (Hlen & _). lia.
Qed.

Lemma abort_is_retried_until_exhausted_witness :
  Llm.attemptFrom Scenario.mockDefault Scenario.alwaysAborted [] 0 =
  Llm.after 1000%Z
    <$> Llm.attemptFrom Scenario.mockDefault Scenario.alwaysAborted [] 1.
Proof.
  refine (proj1 (abort_is_retried_until_exhausted
    Scenario.mockDefault Scenario.alwaysAborted [] 0 Js.abortError _ _) _).
  - reflexivity.
  - reflexivity.
  - vm_compute. reflexivity.
Defined.

(** C7: a call of [complete] of either adapter settles; it makes at most
    [maxRetries] retries; the delay slept before the retry numbered [k] is
    [retryDelayMs * 2 ^ k], nothing added; and the call settles as its last
    attempt did, so a call that fails throws the error of its last attempt.
    With the defaults that is at most 2 retries (3 attempts), after
    1000 ms and then 2000 ms. *)
Theorem retries_bounded_with_doubling_delay :
  (forall (a : Llm.Adapter) (backend : Llm.Backend)
          (messages : list Llm.Message),
     exists run,
       Llm.complete a backend messages = Some run
       /\ (Z.of_nat (length (Llm.delays run))
           <= Z.max 0 (Llm.maxRetries (Llm.config a)))%Z
       /\ Llm.delays run =
          map (fun k => (Llm.retryDelayMs (Llm.config a) * 2 ^ Z.of_nat k)%Z)
              (seq 0 (length (Llm.delays run)))
       /\ Llm.tryBlock a (backend (Llm.request a messages)
                                  (length (Llm.delays run)))
          = Llm.outcome run)
  /\ (forall base : string,
        Llm.maxRetries (Llm.defaults base) = 2%Z
        /\ Llm.retryDelayMs (Llm.defaults base) = 1000%Z
        /\ map (Llm.backoff (Llm.defaults base)) (seq 0 2) = [1000%Z; 2000%Z]).
Proof.
  split.
  - intros a backend messages.
    rewrite complete_loop, attemptFrom_loop.
    destruct (fetchWithRetry_settles (Llm.tryBlock a) (Llm.config a)
                (backend (Llm.request a messages)) 0) as [run Hrun].
    exists run. split; [done|].
    apply fetchWithRetry_run in Hrun as (Hlen & Hdelays & Hlast).
    split_and!; [lia|done|done].
  - intros base. split_and!; reflexivity.
Qed.

(** C9: when an attempt gets a response that is [ok] and whose JSON object
    has no [completion] field, the mock adapter resolves, with an undefined
    completion; when the response is [ok] with neither [response] nor
    [completion], the Ollama adapter throws
    "Ollama response missing completion field" (and does not retry). *)
Theorem missing_completion_field (c : Llm.Config) (modelName : string)
    (backend : Llm.Backend) (messages : list Llm.Message)
    (attempt status : nat) (response : option string) :
  Llm.ok status = true ->
  (backend (Llm.request (Llm.Mock c) messages) attempt
     = Llm.Responds status (Llm.JsonObject response None) ->
   Llm.MockLlmAdapter.fetchWithRetry c backend (Llm.renderPrompt messages)
     attempt
   = Some {| Llm.outcome := inr None; Llm.delays := [] |})
  /\ (backend (Llm.request (Llm.Ollama c modelName) messages) attempt
        = Llm.Responds status (Llm.JsonObject None None) ->
      Llm.OllamaLlmAdapter.fetchWithRetry c modelName backend messages attempt
      = Some {| Llm.outcome :=
                  inl (Js.newError "Ollama response missing completion field");
                Llm.delays := [] |}).
Proof.
  intros Hok. split; intros Hresp.
  - change (Llm.MockLlmAdapter.fetchWithRetry c backend
              (Llm.renderPrompt messages) attempt)
      with (Llm.attemptFrom (Llm.Mock c) backend messages attempt).
    rewrite attemptFrom_unfold, Hresp. cbn. by rewrite Hok.
  - change (Llm.OllamaLlmAdapter.fetchWithRetry c modelName backend messages
              attempt)
      with (Llm.attemptFrom (Llm.Ollama c modelName) backend messages attempt).
    rewrite attemptFrom_unfold, Hresp. cbn. by rewrite Hok.
Qed.

Lemma missing_completion_field_witness :
  Llm.MockLlmAdapter.complete (Llm.defaults "http://mock-llm:8080")
    Scenario.emptyObject []
  = Some {| Llm.outcome := inr None; Llm.delays := [] |}
  /\ Llm.OllamaLlmAdapter.complete (Llm.defaults "http://ollama:11434")
       "llama3" Scenario.emptyObject []
     = Some {| Llm.outcome :=
                 inl (Js.newError "Ollama response missing completion field");
               Llm.delays := [] |}.
Proof.
  split.
  - refine (proj1 (missing_completion_field
      (Llm.defaults "http://mock-llm:8080") "llama3" Scenario.emptyObject []
      0 200 None _) _); reflexivity.
  - refine (proj2 (missing_completion_field
      (Llm.defaults "http://ollama:11434") "llama3" Scenario.emptyObject []
      0 200 None _) _); reflexivity.
Defined.

(** ** Conversations that do not exist *)

(** C8, as stated, fails: the error thrown for a missing conversation gets
    the very response of an unclassified failure, status 500 with
    "Internal server error". *)
Lemma not_found_gets_the_internal_error_response :
  ConversationService.getConversation "missing" None 20 Scenario.emptyDb
  = inl (Js.newError "Conversation not found")
  /\ Middleware.errorHandler (Js.newError "Conversation not found") "req-1"
     = Middleware.errorHandler (Js.newError "unexpected failure") "req-1"
  /\ Middleware.status
       (Middleware.errorHandler (Js.newError "Conversation not found") "req-1")
     = 500.
Proof. split_and!; vm_compute; reflexivity. Qed.

(** C8, amended: for a conversation that does not exist, [getConversation] and
    [sendMessage] throw an [Error] with the message "Conversation not found",
    [deleteConversation] throws the store's record-not-found error, and the
    store is left as it was; the error handler has no branch of its own for
    "Conversation not found" and answers it with status 500 and
    "Internal server error", as it answers an unclassified failure. *)
Theorem missing_conversation_is_an_error (db : Prisma.Db) (id : string)
    (messagesCursor : option string) (limit : nat)
    (llmAdapter : ConversationService.LlmAdapter)
    (freshUser freshReply : Prisma.Fresh) (content correlationId : string) :
  Prisma.conversation_findUnique id db = None ->
  ConversationService.getConversation id messagesCursor limit db
  = inl (Js.newError "Conversation not found")
  /\ ConversationService.sendMessage llmAdapter freshUser freshReply id content db
     = (db, inl (Js.newError "Conversation not found"))
  /\ ConversationService.deleteConversation id db
     = (db, inl Prisma.recordNotFound)
  /\ Middleware.errorHandler (Js.newError "Conversation not found") correlationId
     = {| Middleware.status := 500;
          Middleware.json :=
            {| Middleware.error := "Internal server error";
               Middleware.details := None;
               Middleware.retryAfterMs := None;
               Middleware.correlationId := Some correlationId |} |}.
Proof.
  intros Hmissing. split_and!.
  - unfold ConversationService.getConversation. by rewrite Hmissing.
  - unfold ConversationService.sendMessage. by rewrite Hmissing.
  - unfold ConversationService.deleteConversation, Prisma.conversation_delete.
    by rewrite Hmissing.
  - reflexivity.
Qed.

Lemma missing_conversation_is_an_error_witness :
  ConversationService.getConversation "c2" (Some "m1") 20
    Scenario.oneConversation
  = inl (Js.newError "Conversation not found").
Proof.
  refine (proj1 (missing_conversation_is_an_error Scenario.oneConversation "c2"
    (Some "m1") 20 Scenario.failing (Scenario.fresh "m1" 2)
    (Scenario.fresh "m2" 3) "Hello" "req-1" _)).
  reflexivity.
Defined.

(** ** Conversation titles *)

Section Titles.

Import Prisma ConversationService Server.

Lemma titleOf_inj : Inj (=) (=) titleOf.
Proof.
  intros m n Heq. unfold titleOf in Heq.
  apply (inj (String.app "Conversation #")) in Heq.
  by apply (inj pretty) in Heq.
Qed.

(** Once [initCounter] has assigned, the titles of one process count up from
    the counter, whatever is deleted in between. *)
Lemma serve_titles (requests : list Request) (s : Server.t) :
  seeding s = Seeded ->
  forallb (fun r => negb (isRestart r)) requests = true ->
  snd (serve requests s) =
  map titleOf (seq (S (conversationCounter (service s)))
                   (length (filter (fun r => isCreate r = true) requests))).
Proof.
  revert s. induction requests as [|r rest IH]; intros s Hseeded Hrun; [done|].
  destruct r as [fresh|id| | |]; cbn in Hrun; [| |done| |].
  - cbn [serve]. unfold createConversation, conversation_create.
    match goal with
    | |- context [serve rest ?s0] =>
        specialize (IH s0 Hseeded Hrun); destruct (serve rest s0) as [s' titles]
    end.
    cbn in IH |- *. by rewrite IH.
  - cbn [serve]. rewrite IH by done. done.
  - cbn [serve]. unfold countRuns. rewrite Hseeded. by apply IH.
  - cbn [serve]. unfold countAssigned. rewrite Hseeded. by apply IH.
Qed.

End Titles.

(** C5, as stated, fails: a process starts and seeds its counter, three
    conversations are created (#1, #2, #3), the first is deleted and the
    process restarts; the counter is then seeded with the two conversations
    left, and the next title repeats "Conversation #3". *)
Lemma title_repeats_after_delete_and_restart :
  snd (Server.serve Scenario.deleteThenRestart (Server.boot Scenario.emptyDb))
  = [ "Conversation #1"; "Conversation #2"; "Conversation #3";
      "Conversation #3" ]
  /\ ~ NoDup (snd (Server.serve Scenario.deleteThenRestart
                     (Server.boot Scenario.emptyDb))).
Proof.
  assert (snd (Server.serve Scenario.deleteThenRestart
                 (Server.boot Scenario.emptyDb))
          = [ "Conversation #1"; "Conversation #2"; "Conversation #3";
              "Conversation #3" ]) as Htitles by (vm_compute; reflexivity).
  split; [done|]. rewrite Htitles. intros Hnodup.
  apply NoDup_cons_1_2, NoDup_cons_1_2, NoDup_cons_1_1 in Hnodup.
  apply Hnodup. by left.
Qed.

(** The constructor does not await [initCounter]. A conversation created
    while the call is pending is numbered from the initial 0, and the
    assignment that follows overwrites the counter: on a store of two
    conversations the titles of one run are #1 and then #3, and the counter
    ends at 3 with four conversations stored. *)
Lemma creation_while_initCounter_is_pending :
  let run :=
    Server.serve Scenario.createWhileSeeding
      (Server.boot Scenario.twoConversations) in
  run.2 = [ "Conversation #1"; "Conversation #3" ]
  /\ ConversationService.conversationCounter (Server.service run.1) = 3
  /\ length (Prisma.conversations (Server.store run.1)) = 4.
Proof. vm_compute. done. Qed.

(** C5, amended: when the [initCounter] call of a starting process completes,
    the counter is set to the number of conversations stored when the store
    counted them (deleted ones are not counted), and every
    [createConversation] increases it by one. So from then on, within that
    run of the process, the numbers in the titles are consecutive and
    increasing and no title repeats, whatever is deleted between the
    creations; three creations give the three numbers that follow the
    counter. *)
Theorem titles_count_up_within_a_run (requests : list Server.Request)
    (s : Server.t) :
  Server.seeding s = Server.Seeded ->
  forallb (fun r => negb (Server.isRestart r)) requests = true ->
  snd (Server.serve requests s) =
  map ConversationService.titleOf
      (seq (S (ConversationService.conversationCounter (Server.service s)))
           (length (filter (fun r => Server.isCreate r = true) requests)))
  /\ NoDup (snd (Server.serve requests s))
  /\ (forall (db snapshot : Prisma.Db) (svc : ConversationService.Service),
        let pending :=
          {| Server.service := svc; Server.store := db;
             Server.seeding := Server.Counted snapshot |} in
        Server.seeding (Server.countRuns (Server.boot db))
        = Server.Counted db
        /\ Server.seeding (Server.countAssigned pending) = Server.Seeded
        /\ ConversationService.conversationCounter
             (Server.service (Server.countAssigned pending))
           = length (Prisma.conversations snapshot))
  /\ (forall (fresh : Prisma.Fresh) (svc : ConversationService.Service)
             (db : Prisma.Db),
        let '(svc', _, conversation) :=
          ConversationService.createConversation fresh svc db in
        ConversationService.conversationCounter svc'
        = S (ConversationService.conversationCounter svc)
        /\ Conversation.title conversation
           = ConversationService.titleOf
               (ConversationService.conversationCounter svc')).
Proof.
  intros Hseeded Hrun. split_and!.
  - by apply serve_titles.
  - rewrite serve_titles by done.
    apply (NoDup_fmap_2 _), NoDup_seq.
  - done.
  - done.
Qed.

Lemma titles_count_up_within_a_run_witness :
  snd (Server.serve Scenario.deleteBetween (Server.started Scenario.emptyDb))
  = [ "Conversation #1"; "Conversation #2"; "Conversation #3" ].
Proof.
  refine (eq_trans
    (proj1 (titles_count_up_within_a_run Scenario.deleteBetween
              (Server.started Scenario.emptyDb) _ _)) _).
  - reflexivity.
  - reflexivity.
  - vm_compute. reflexivity.
Defined.

(** ** The store *)

Section OrderFacts.

Import Prisma.

Context {A : Type} (at_ : A -> nat).

#[global] Instance newerFirst_total : Total (newerFirst at_).
Proof. intros a b. unfold newerFirst. lia. Qed.

#[global] Instance newerFirst_trans : Transitive (newerFirst at_).
Proof. intros a b d. unfold newerFirst. lia. Qed.

#[global] Instance olderFirst_total : Total (olderFirst at_).
Proof. intros a b. unfold olderFirst. lia. Qed.

#[global] Instance olderFirst_trans : Transitive (olderFirst at_).
Proof. intros a b d. unfold olderFirst. lia. Qed.

Lemma orderBy_perm (o : Order) (rows : list A) : orderBy at_ o rows ≡ₚ rows.
Proof. destruct o; apply merge_sort_Permutation. Qed.

Lemma elem_of_orderBy (o : Order) (rows : list A) (x : A) :
  x ∈ orderBy at_ o rows <-> x ∈ rows.
Proof. by rewrite orderBy_perm. Qed.

Lemma length_orderBy (o : Order) (rows : list A) :
  length (orderBy at_ o rows) = length rows.
Proof. by rewrite orderBy_perm. Qed.

Lemma orderBy_desc_sorted (rows : list A) :
  StronglySorted (newerFirst at_) (orderBy at_ desc rows).
Proof. apply (StronglySorted_merge_sort _). Qed.


End OrderFacts.

Section StoreFacts.

Import Prisma ConversationService.

Lemma matches_conversation (id : string) (m : Message.t) :
  matches {| whereConversationId := id; whereId := None |} m
  <-> Message.conversationId m = id.
Proof.
  unfold matches. cbn. rewrite andb_true_r. apply bool_decide_spec.
Qed.

Lemma filter_matches_conversation (id : string) (rows : list Message.t) :
  filter (fun m => matches {| whereConversationId := id; whereId := None |} m)
         rows
  = filter (fun m => Message.conversationId m = id) rows.
Proof. apply list_filter_iff. intros m. apply matches_conversation. Qed.

Lemma message_create_found (fresh : Fresh) (conversationId : string)
    (role : Llm.Role) (text : string) (db : Db) (conversation : Conversation.t) :
  conversation_findUnique conversationId db = Some conversation ->
  message_create fresh conversationId role (Some text) db
  = inr (withMessage db (inserted fresh conversationId role text),
         inserted fresh conversationId role text).
Proof. intros Hfound. unfold message_create. by rewrite Hfound. Qed.

(** With a limit that covers the conversation, the cursorless page holds all
    its messages. *)
Lemma getConversation_whole (id : string) (limit : nat) (db : Db)
    (conversation : Conversation.t) (m : Message.t) :
  conversation_findUnique id db = Some conversation ->
  length (ofConversation id db) <= limit ->
  m ∈ ofConversation id db ->
  exists page,
    getConversation id None limit db = inr page
    /\ toJson m ∈ pageMessages page.
Proof.
  intros Hfound Hlimit Hm. unfold getConversation. rewrite Hfound.
  change (Lte <$> given None) with (@None IdFilter).
  set (rows := message_findMany _ _ _ _).
  assert (rows = orderBy Message.createdAt desc (ofConversation id db)) as ->.
  { unfold rows, message_findMany, takeRows.
    rewrite filter_matches_conversation. fold (ofConversation id db).
    apply take_ge. rewrite length_orderBy. lia. }
  rewrite length_orderBy.
  replace (limit <? length (ofConversation id db))%nat with false
    by (symmetry; apply Nat.ltb_ge; lia).
  eexists. split; [done|]. cbn [pageMessages].
  apply list_elem_of_fmap_2, elem_of_reverse, elem_of_orderBy. done.
Qed.

End StoreFacts.

(** ** [sendMessage] *)

Section SendFacts.

Import Prisma ConversationService.

(** The three ways a call on an existing conversation ends. *)
Lemma sendMessage_cases (llmAdapter : LlmAdapter) (freshUser freshReply : Fresh)
    (conversationId content : string) (db : Db) (conversation : Conversation.t) :
  conversation_findUnique conversationId db = Some conversation ->
  let userMessage := inserted freshUser conversationId Llm.user content in
  let db1 := withMessage db userMessage in
  match llmAdapter (historyFor conversationId content db) with
  | inl error =>
      sendMessage llmAdapter freshUser freshReply conversationId content db
      = (db1, inl error)
  | inr None =>
      sendMessage llmAdapter freshUser freshReply conversationId content db
      = (db1, inl argumentMissing)
  | inr (Some text) =>
      let assistantMessage :=
        inserted freshReply conversationId Llm.assistant text in
      exists db3,
        conversation_update conversationId (now freshReply)
          (withMessage db1 assistantMessage) = inr db3
        /\ sendMessage llmAdapter freshUser freshReply conversationId content db
           = (db3, inr {| message := toJson userMessage;
                          reply := toJson assistantMessage |})
  end.
Proof.
  intros Hfound userMessage db1.
  unfold sendMessage. rewrite Hfound.
  rewrite (message_create_found _ _ _ _ _ _ Hfound).
  fold userMessage db1.
  change (map toLlm ?h ++ [?turn])%list
    with (historyFor conversationId content db).
  destruct (llmAdapter (historyFor conversationId content db))
    as [error|[text|]]; [done| |done].
  assert (conversation_findUnique conversationId db1 = Some conversation)
    as Hfound1 by done.
  rewrite (message_create_found _ _ _ _ _ _ Hfound1).
  set (assistantMessage := inserted freshReply conversationId Llm.assistant text).
  assert (conversation_findUnique conversationId
            (withMessage db1 assistantMessage) = Some conversation)
    as Hfound2 by done.
  unfold conversation_update. rewrite Hfound2. cbn. eauto.
Qed.

End SendFacts.

(** C1, as stated, fails: the two timestamps are the ones the store gives the
    rows at the two inserts, and [sendMessage] does not compare them. With a
    store clock that is set back between the inserts (5 at the first, 3 at
    the second) the call succeeds and the reply is stamped before the user
    message. *)
Lemma reply_stamped_before_the_user_message :
  let sent :=
    ConversationService.sendMessage Scenario.replying (Scenario.fresh "m1" 5)
      (Scenario.fresh "m2" 3) "c1" "Hello" Scenario.oneConversation in
  sent.2 = inr {| ConversationService.message :=
                    Scenario.json "m1" 5 Llm.user "Hello";
                  ConversationService.reply :=
                    Scenario.json "m2" 3 Llm.assistant "Hi there" |}
  /\ exists result,
       sent.2 = inr result
       /\ ConversationService.createdAt (ConversationService.reply result)
          < ConversationService.createdAt (ConversationService.message result).
Proof.
  split; [reflexivity|]. eexists. split; [reflexivity|]. cbn. lia.
Qed.

(** C1, amended: on an existing conversation, when the adapter call fails,
    [sendMessage] fails with the adapter's error; whenever [sendMessage]
    fails, the store holds exactly one more row, the user message, the
    conversation rows (and so [lastMessageAt]) are as before, and
    [getConversation] returns the user message. When the adapter resolves
    with a completion text, [sendMessage] returns the user message and the
    assistant message, both stored, each with the creation time the store
    gave it; the reply is not older than the user message provided the
    store's clock did not run backwards between the two inserts. *)
Theorem sendMessage_keeps_the_user_turn
    (llmAdapter : ConversationService.LlmAdapter)
    (freshUser freshReply : Prisma.Fresh) (conversationId content : string)
    (db : Prisma.Db) (conversation : Conversation.t) :
  Prisma.conversation_findUnique conversationId db = Some conversation ->
  let userMessage :=
    {| Message.id := Prisma.cuid freshUser;
       Message.conversationId := conversationId;
       Message.role := Llm.user; Message.content := content;
       Message.createdAt := Prisma.now freshUser |} in
  let sent :=
    ConversationService.sendMessage llmAdapter freshUser freshReply
      conversationId content db in
  (forall error,
     llmAdapter (ConversationService.historyFor conversationId content db)
     = inl error ->
     sent.2 = inl error)
  /\ (forall error,
        sent.2 = inl error ->
        Prisma.messages sent.1 = (Prisma.messages db ++ [userMessage])%list
        /\ Prisma.conversations sent.1 = Prisma.conversations db
        /\ forall limit,
             length (Prisma.ofConversation conversationId sent.1) <= limit ->
             exists page,
               ConversationService.getConversation conversationId None limit
                 sent.1 = inr page
               /\ ConversationService.toJson userMessage
                  ∈ ConversationService.pageMessages page)
  /\ (forall text,
        llmAdapter (ConversationService.historyFor conversationId content db)
        = inr (Some text) ->
        let assistantMessage :=
          {| Message.id := Prisma.cuid freshReply;
             Message.conversationId := conversationId;
             Message.role := Llm.assistant; Message.content := text;
             Message.createdAt := Prisma.now freshReply |} in
        sent.2 = inr {| ConversationService.message :=
                          ConversationService.toJson userMessage;
                        ConversationService.reply :=
                          ConversationService.toJson assistantMessage |}
        /\ Prisma.messages sent.1
           = (Prisma.messages db ++ [userMessage; assistantMessage])%list)
  /\ (forall result,
        sent.2 = inr result ->
        ConversationService.message result
        = ConversationService.toJson userMessage
        /\ ConversationService.createdAt (ConversationService.message result)
           = Prisma.now freshUser
        /\ ConversationService.createdAt (ConversationService.reply result)
           = Prisma.now freshReply
        /\ (Prisma.now freshUser <= Prisma.now freshReply ->
            ConversationService.createdAt (ConversationService.message result)
            <= ConversationService.createdAt
                 (ConversationService.reply result))
        /\ exists assistantMessage,
             ConversationService.reply result
             = ConversationService.toJson assistantMessage
             /\ Message.role assistantMessage = Llm.assistant
             /\ Prisma.messages sent.1
                = (Prisma.messages db ++ [userMessage; assistantMessage])%list).
Proof.
  intros Hfound userMessage sent.
  pose proof (sendMessage_cases llmAdapter freshUser freshReply conversationId
                content db conversation Hfound) as Hcases.
  cbn zeta in Hcases.
  change (Prisma.inserted freshUser conversationId Llm.user content)
    with userMessage in Hcases.
  fold sent in Hcases.
  assert (forall error,
            sent = (Prisma.withMessage db userMessage, inl error) ->
            forall error',
              sent.2 = inl error' ->
              Prisma.messages sent.1 = (Prisma.messages db ++ [userMessage])%list
              /\ Prisma.conversations sent.1 = Prisma.conversations db
              /\ forall limit,
                   length (Prisma.ofConversation conversationId sent.1) <= limit ->
                   exists page,
                     ConversationService.getConversation conversationId None
                       limit sent.1 = inr page
                     /\ ConversationService.toJson userMessage
                        ∈ ConversationService.pageMessages page) as Hfailed.
  { intros error -> error' _. cbn [fst]. split_and!; [done|done|].
    intros limit Hlimit.
    apply (getConversation_whole _ _ _ conversation); [done|done|].
    unfold Prisma.ofConversation. apply list_elem_of_filter. split; [done|].
    cbn. apply elem_of_app. right. by left. }
  destruct (llmAdapter
              (ConversationService.historyFor conversationId content db))
    as [error|[text|]] eqn:Hllm.
  - split_and!.
    + intros error' [= <-]. by rewrite Hcases.
    + by apply (Hfailed error).
    + intros text [=].
    + rewrite Hcases. intros result [=].
  - destruct Hcases as (db3 & Hupdate & Hsent).
    assert (Prisma.messages db3
            = (Prisma.messages db
               ++ [userMessage;
                   Prisma.inserted freshReply conversationId Llm.assistant
                     text])%list) as Hrows.
    { unfold Prisma.conversation_update in Hupdate.
      destruct (Prisma.conversation_findUnique _ _); [|done].
      injection Hupdate as <-. cbn. by rewrite <- app_assoc. }
    split_and!.
    + intros error [=].
    + rewrite Hsent. intros error [=].
    + intros text' [= <-]. rewrite Hsent. cbn [fst snd]. done.
    + rewrite Hsent. cbn [fst snd]. intros result [= <-]. cbn.
      split_and!; [done|done|done|done|].
      eexists. split_and!; [done|done|done].
  - split_and!.
    + intros error [=].
    + by apply (Hfailed Prisma.argumentMissing).
    + intros text [=].
    + rewrite Hcases. intros result [=].
Qed.

Lemma sendMessage_keeps_the_user_turn_witness :
  (ConversationService.sendMessage Scenario.failing (Scenario.fresh "m1" 2)
     (Scenario.fresh "m2" 3) "c1" "Hello" Scenario.oneConversation).2
  = inl (Js.newError "Mock LLM returned 500")
  /\ (ConversationService.sendMessage Scenario.replying
        (Scenario.fresh "m1" 2) (Scenario.fresh "m2" 3) "c1" "Hello"
        Scenario.oneConversation).2
     = inr {| ConversationService.message :=
                Scenario.json "m1" 2 Llm.user "Hello";
              ConversationService.reply :=
                Scenario.json "m2" 3 Llm.assistant "Hi there" |}.
Proof.
  split.
  - refine (proj1 (sendMessage_keeps_the_user_turn Scenario.failing
      (Scenario.fresh "m1" 2) (Scenario.fresh "m2" 3) "c1" "Hello"
      Scenario.oneConversation
      {| Conversation.id := "c1"; Conversation.title := "Conversation #1";
         Conversation.createdAt := 1; Conversation.lastMessageAt := None |}
      _) (Js.newError "Mock LLM returned 500") _); reflexivity.
  - refine (proj1 (proj1 (proj2 (proj2 (sendMessage_keeps_the_user_turn
      Scenario.replying
      (Scenario.fresh "m1" 2) (Scenario.fresh "m2" 3) "c1" "Hello"
      Scenario.oneConversation
      {| Conversation.id := "c1"; Conversation.title := "Conversation #1";
         Conversation.createdAt := 1; Conversation.lastMessageAt := None |}
      _))) "Hi there" _)); reflexivity.
Defined.

(** ** [listConversations] *)

Section ListFacts.

Import Prisma ConversationService.


End ListFacts.


(** ** Cursor pagination *)

Section ListLemmas.

Context {A B : Type}.

Lemma NoDup_fmap_eq (f : A -> B) (l : list A) (a b : A) :
  NoDup (f <$> l) -> a ∈ l -> b ∈ l -> f a = f b -> a = b.
Proof.
  induction l as [|x l IH]; intros Hnodup Ha Hb Hfab.
  - by apply elem_of_nil in Ha.
  - rewrite fmap_cons in Hnodup. apply NoDup_cons in Hnodup as [Hx Hl].
    apply elem_of_cons in Ha as [->|Ha]; apply elem_of_cons in Hb as [->|Hb].
    + done.
    + exfalso. apply Hx. rewrite Hfab. by apply list_elem_of_fmap_2.
    + exfalso. apply Hx. rewrite <- Hfab. by apply list_elem_of_fmap_2.
    + by apply IH.
Qed.

Lemma filter_none (P : A -> Prop) `{!forall x, Decision (P x)} (l : list A) :
  (forall x, x ∈ l -> ~ P x) -> filter P l = [].
Proof.
  induction l as [|x l IH]; intros Hnone; [done|].
  rewrite filter_cons_False by (apply Hnone; by left).
  apply IH. intros y Hy. apply Hnone. by right.
Qed.

Lemma filter_all (P : A -> Prop) `{!forall x, Decision (P x)} (l : list A) :
  (forall x, x ∈ l -> P x) -> filter P l = l.
Proof.
  induction l as [|x l IH]; intros Hall; [done|].
  rewrite filter_cons_True by (apply Hall; by left).
  f_equal. apply IH. intros y Hy. apply Hall. by right.
Qed.

Lemma StronglySorted_drop (R : relation A) (k : nat) (l : list A) :
  StronglySorted R l -> StronglySorted R (drop k l).
Proof.
  intros Hsorted. rewrite <- (take_drop k l) in Hsorted.
  by apply StronglySorted_app in Hsorted as (_ & _ & ?).
Qed.

Lemma StronglySorted_NoDup (R : relation A) (l : list A) :
  (forall x, ~ R x x) -> StronglySorted R l -> NoDup l.
Proof.
  intros Hirr. induction 1 as [|x l Hl IH Hall]; constructor; [|done].
  intros Hx. rewrite Forall_forall in Hall. by apply (Hirr x), Hall.
Qed.

End ListLemmas.

Section Pagination.

Import Prisma ConversationService Client.

Variable db : Db.
Variable id : string.
Variable conversation : Conversation.t.
Variable limit : nat.

Hypothesis Hfound : conversation_findUnique id db = Some conversation.
Hypothesis Hsortable : sortableIds (ofConversation id db).

(** The messages of the conversation, newest first. *)
Local Abbreviation own := (ofConversation id db).
Local Abbreviation rows := (orderBy Message.createdAt desc (ofConversation id db)).

Lemma own_eq (a b : Message.t) :
  a ∈ own -> b ∈ own -> Message.id a = Message.id b -> a = b.
Proof. destruct Hsortable as (Hnodup & _). by apply NoDup_fmap_eq. Qed.

Lemma own_le (a b : Message.t) :
  a ∈ own -> b ∈ own -> Message.createdAt a <= Message.createdAt b ->
  String.le (Message.id a) (Message.id b).
Proof.
  destruct Hsortable as (_ & _ & Hle). intros Ha Hb.
  rewrite Forall_forall in Hle. specialize (Hle a Ha).
  rewrite Forall_forall in Hle. by apply Hle.
Qed.

Lemma own_nonempty (a : Message.t) : a ∈ own -> Js.truthy (Message.id a) = true.
Proof.
  destruct Hsortable as (_ & Hne & _). intros Ha.
  rewrite Forall_forall in Hne. specialize (Hne a Ha).
  by destruct (Message.id a).
Qed.

Lemma strict_of_sorted (l : list Message.t) :
  (forall x, x ∈ l -> x ∈ own) -> NoDup l ->
  StronglySorted (newerFirst Message.createdAt) l ->
  StronglySorted strictlyNewer l.
Proof.
  induction l as [|a l IH]; intros Hown Hnodup Hsorted; [constructor|].
  apply StronglySorted_inv in Hsorted as [Hl Hall].
  apply NoDup_cons in Hnodup as [Ha Hnodup].
  constructor.
  - apply IH; [|done|done]. intros x Hx. apply Hown. by right.
  - rewrite Forall_forall in Hall |- *. intros b Hb.
    assert (a ∈ own) as Hao by (apply Hown; by left).
    assert (b ∈ own) as Hbo by (apply Hown; by right).
    assert (Message.id b <> Message.id a) as Hne.
    { intros Heq. apply Ha. by rewrite <- (own_eq b a Hbo Hao Heq). }
    specialize (Hall b Hb). unfold newerFirst in Hall.
    split_and!; [|by apply own_le|done].
    destruct (decide (Message.createdAt b < Message.createdAt a)); [done|].
    exfalso. apply Hne. apply (anti_symm String.le); apply own_le; auto; lia.
Qed.

Lemma own_NoDup : NoDup own.
Proof.
  destruct Hsortable as (Hnodup & _). by apply NoDup_fmap_1 in Hnodup.
Qed.

Lemma rows_strict : StronglySorted strictlyNewer rows.
Proof.
  apply strict_of_sorted.
  - intros x. by rewrite elem_of_orderBy.
  - rewrite orderBy_perm. apply own_NoDup.
  - apply orderBy_desc_sorted.
Qed.

Lemma filter_lte_drop (l : list Message.t) (k : nat) (x : Message.t) :
  StronglySorted strictlyNewer l -> l !! k = Some x ->
  filter (fun m => String.le (Message.id m) (Message.id x)) l = drop k l.
Proof.
  revert k. induction l as [|a l IH]; intros k Hsorted Hk; [done|].
  apply StronglySorted_inv in Hsorted as [Hl Hall].
  rewrite Forall_forall in Hall.
  destruct k as [|k]; cbn in Hk.
  - injection Hk as ->. rewrite filter_cons_True by done. cbn. f_equal.
    apply filter_all. intros b Hb. by destruct (Hall b Hb) as (_ & ? & _).
  - assert (x ∈ l) as Hx by (by eapply list_elem_of_lookup_2).
    destruct (Hall x Hx) as (_ & Hle & Hne).
    rewrite filter_cons_False.
    + cbn. by apply IH.
    + intros Hge. apply Hne. by apply (anti_symm String.le).
Qed.

(** The rows of a query with the cursor on the row at position [k], also
    after newer rows have arrived. *)
Lemma cursor_rows (k : nat) (x : Message.t) (arrived : list Message.t) :
  rows !! k = Some x ->
  newerIds own (filter (fun m => Message.conversationId m = id) arrived) ->
  orderBy Message.createdAt desc
    (filter (fun m => matches {| whereConversationId := id;
                                 whereId := Some (Lte (Message.id x)) |} m)
            (messages (appendMessages db arrived)))
  = drop k rows.
Proof.
  intros Hk Hnewer.
  assert (x ∈ own) as Hx.
  { apply (elem_of_orderBy Message.createdAt desc).
    by eapply list_elem_of_lookup_2. }
  assert (filter (fun m => matches {| whereConversationId := id;
                                      whereId := Some (Lte (Message.id x)) |} m)
                 (messages (appendMessages db arrived))
          = filter (fun m => String.le (Message.id m) (Message.id x)) own)
    as ->.
  { cbn [appendMessages messages]. rewrite filter_app.
    rewrite (filter_none _ arrived).
    - rewrite app_nil_r. unfold ofConversation. rewrite list_filter_filter.
      apply list_filter_iff. intros m. unfold matches, lte. cbn.
      rewrite andb_True, !bool_decide_spec. tauto.
    - intros m Hm Hmatch. unfold matches, lte in Hmatch. cbn in Hmatch.
      rewrite andb_True, !bool_decide_spec in Hmatch.
      destruct Hmatch as [Hconv Hle].
      unfold newerIds in Hnewer. rewrite Forall_forall in Hnewer.
      assert (m ∈ filter (fun m => Message.conversationId m = id) arrived)
        as Hm' by (by apply list_elem_of_filter).
      specialize (Hnewer m Hm'). rewrite Forall_forall in Hnewer.
      by apply (Hnewer x Hx). }
  apply (StronglySorted_unique_strong (newerFirst Message.createdAt)).
  - intros a b Ha Hb Hab Hba.
    apply elem_of_orderBy, list_elem_of_filter in Ha as [_ Ha].
    apply (subseteq_drop k rows) in Hb. rewrite elem_of_orderBy in Hb.
    unfold newerFirst in Hab, Hba.
    apply own_eq; [done|done|].
    apply (anti_symm String.le); by apply own_le.
  - apply orderBy_desc_sorted.
  - apply StronglySorted_drop, orderBy_desc_sorted.
  - rewrite orderBy_perm.
    rewrite <- (filter_lte_drop rows k x rows_strict Hk).
    by rewrite orderBy_perm.
Qed.

(** What [getConversation] makes of the rows its first query finds. *)
Lemma getConversation_page (messagesCursor : option string) (db' : Db)
    (found : list Message.t) :
  conversation_findUnique id db' = Some conversation ->
  orderBy Message.createdAt desc
    (filter (fun m => matches {| whereConversationId := id;
                                 whereId := Lte <$> given messagesCursor |} m)
            (messages db'))
  = found ->
  exists page,
    getConversation id messagesCursor limit db' = inr page
    /\ pageMessages page = map toJson (reverse (take limit found))
    /\ nextCursor (pageInfo page) = Message.id <$> found !! limit
    /\ prevCursor (pageInfo page)
       = match given messagesCursor with
         | Some _ =>
             match head (message_findMany
                           {| whereConversationId := id;
                              whereId :=
                                Gt <$> (Message.id <$> last (take limit found)) |}
                           asc (Some 1) db') with
             | Some m => given (Some (Message.id m))
             | None => None
             end
         | None => None
         end.
Proof.
  intros Hfound' Hrows.
  assert (message_findMany
            {| whereConversationId := id;
               whereId := Lte <$> given messagesCursor |}
            desc (Some (limit + 1)) db'
          = take (limit + 1) found) as Hquery.
  { unfold message_findMany, takeRows. by rewrite Hrows. }
  unfold getConversation. rewrite Hfound'. cbn zeta. rewrite !Hquery.
  eexists. split; [done|]. cbn [pageMessages pageInfo nextCursor prevCursor].
  destruct (decide (limit < length found)) as [Hmore|Hlast].
  - rewrite length_take_le by lia.
    replace (limit <? limit + 1)%nat with true
      by (symmetry; apply Nat.ltb_lt; lia).
    rewrite take_take, Nat.min_l by lia.
    rewrite lookup_take_lt by lia. done.
  - rewrite (take_ge found (limit + 1)) by lia.
    replace (limit <? length found)%nat with false
      by (symmetry; apply Nat.ltb_ge; lia).
    rewrite (take_ge found limit) by lia.
    rewrite lookup_ge_None_2 by lia. done.
Qed.

Lemma filter_gt_take (l : list Message.t) (j : nat) (y : Message.t) :
  StronglySorted strictlyNewer l -> l !! j = Some y ->
  filter (fun m => ~ String.le (Message.id m) (Message.id y)) l = take j l.
Proof.
  revert j. induction l as [|a l IH]; intros j Hsorted Hj; [done|].
  apply StronglySorted_inv in Hsorted as [Hl Hall].
  rewrite Forall_forall in Hall.
  destruct j as [|j]; cbn in Hj.
  - injection Hj as ->. rewrite filter_cons_False by (intros Hnot; by apply Hnot).
    cbn. apply filter_none. intros b Hb Hnot.
    by destruct (Hall b Hb) as (_ & ? & _).
  - assert (y ∈ l) as Hy by (by eapply list_elem_of_lookup_2).
    destruct (Hall y Hy) as (_ & Hle & Hne).
    rewrite filter_cons_True.
    + cbn. f_equal. by apply IH.
    + intros Hge. apply Hne. by apply (anti_symm String.le).
Qed.

(** The rows newer than the row at position [j], oldest first. *)
Lemma newer_rows (j : nat) (y : Message.t) :
  rows !! j = Some y ->
  orderBy Message.createdAt asc
    (filter (fun m => matches {| whereConversationId := id;
                                 whereId := Some (Gt (Message.id y)) |} m)
            (messages db))
  = reverse (take j rows).
Proof.
  intros Hj.
  assert (filter (fun m => matches {| whereConversationId := id;
                                      whereId := Some (Gt (Message.id y)) |} m)
                 (messages db)
          = filter (fun m => ~ String.le (Message.id m) (Message.id y)) own)
    as ->.
  { unfold ofConversation. rewrite list_filter_filter.
    apply list_filter_iff. intros m. unfold matches, gt, lte. cbn.
    rewrite andb_True, negb_True, !bool_decide_spec. tauto. }
  assert (StronglySorted (newerFirst Message.createdAt) (take j rows))
    as Hprefix.
  { pose proof (orderBy_desc_sorted Message.createdAt own) as Hsorted.
    rewrite <- (take_drop j rows) in Hsorted.
    by apply StronglySorted_app in Hsorted as (_ & ? & _). }
  apply (StronglySorted_unique_strong (olderFirst Message.createdAt)).
  - intros a b Ha Hb Hab Hba.
    apply elem_of_orderBy, list_elem_of_filter in Ha as [_ Ha].
    apply elem_of_reverse, (subseteq_take j rows) in Hb.
    rewrite elem_of_orderBy in Hb.
    unfold olderFirst in Hab, Hba.
    apply own_eq; [done|done|].
    apply (anti_symm String.le); by apply own_le.
  - apply (StronglySorted_merge_sort _).
  - apply Sorted_StronglySorted; [apply _|].
    apply StronglySorted_Sorted, Sorted_reverse in Hprefix. exact Hprefix.
  - rewrite orderBy_perm, reverse_Permutation.
    rewrite <- (filter_gt_take rows j y rows_strict Hj).
    by rewrite orderBy_perm.
Qed.

(** The [prevCursor] of the page fetched with the cursor on the row at
    position [k]: with [j] the position of the oldest row of the page, it is
    the identifier of the row at [j - 1], the row that follows the oldest one
    in time; there is none when the page ends on the newest row of all. *)
Lemma prevCursor_row (k : nat) (x : Message.t) (page : ConversationPage) :
  rows !! k = Some x ->
  1 <= limit ->
  getConversation id (Some (Message.id x)) limit db = inr page ->
  let j := Nat.min (k + limit) (length rows) - 1 in
  prevCursor (pageInfo page)
  = match j with
    | O => None
    | S j' => Message.id <$> rows !! j'
    end.
Proof.
  intros Hk Hlimit Hpage j.
  assert (x ∈ own) as Hx.
  { apply (elem_of_orderBy Message.createdAt desc).
    by eapply list_elem_of_lookup_2. }
  pose proof (lookup_lt_Some _ _ _ Hk) as Hklt.
  destruct (getConversation_page (Some (Message.id x)) db (drop k rows))
    as (page' & Hpage' & _ & _ & Hprev).
  { done. }
  { cbn [given]. rewrite (own_nonempty x Hx).
    pose proof (cursor_rows k x [] Hk) as Hrows.
    unfold appendMessages in Hrows. cbn [messages] in Hrows.
    rewrite app_nil_r in Hrows. apply Hrows. constructor. }
  rewrite Hpage in Hpage'. injection Hpage' as <-. rewrite Hprev.
  cbn [given]. rewrite (own_nonempty x Hx).
  assert (last (take limit (drop k rows)) = rows !! j) as Hlast.
  { rewrite last_lookup, length_take, length_drop.
    rewrite lookup_take_lt by lia. rewrite lookup_drop. f_equal. lia. }
  rewrite Hlast.
  destruct (rows !! j) as [y|] eqn:Hj.
  2: { apply lookup_ge_None in Hj. lia. }
  cbn [fmap option_fmap option_map]. unfold message_findMany, takeRows.
  rewrite (newer_rows j y Hj).
  destruct j as [|j'].
  - done.
  - assert (is_Some (rows !! j')) as [z Hz].
    { apply lookup_lt_is_Some. apply lookup_lt_Some in Hj. lia. }
    rewrite (take_S_r rows j' z Hz), reverse_snoc, Hz. cbn -[orderBy].
    rewrite (own_nonempty z); [done|].
    apply (elem_of_orderBy Message.createdAt desc).
    by eapply list_elem_of_lookup_2.
Qed.

Lemma appendMessages_app (rows1 rows2 : list Message.t) :
  appendMessages (appendMessages db rows1) rows2
  = appendMessages db (rows1 ++ rows2).
Proof. unfold appendMessages. cbn. by rewrite <- app_assoc. Qed.

Hypothesis Hlimit : 1 <= limit.

(** From the cursor on the row at position [k], the client collects the
    slices of the rows that were there at the start, whatever arrives. *)
Lemma followNext_from (fuel k : nat) (x : Message.t)
    (arrived : list Message.t) (arrivals : list (list Message.t)) :
  rows !! k = Some x ->
  length rows < k + fuel ->
  newerIds own (filter (fun m => Message.conversationId m = id) arrived) ->
  Forall (fun batch =>
            newerIds own (filter (fun m => Message.conversationId m = id) batch))
         arrivals ->
  followNext fuel id limit (Some (Message.id x)) (appendMessages db arrived)
             arrivals
  = Some (slices fuel limit k rows).
Proof.
  revert k x arrived arrivals.
  induction fuel as [|fuel IH]; intros k x arrived arrivals Hk Hfuel Hnew Hlater.
  { apply lookup_lt_Some in Hk. lia. }
  assert (x ∈ own) as Hx.
  { apply (elem_of_orderBy Message.createdAt desc).
    by eapply list_elem_of_lookup_2. }
  destruct (getConversation_page (Some (Message.id x))
              (appendMessages db arrived) (drop k rows))
    as (page & Hpage & Hmessages & Hnext & _).
  { done. }
  { cbn [given]. rewrite (own_nonempty x Hx). by apply cursor_rows. }
  cbn [followNext slices]. rewrite Hpage, Hnext, Hmessages, lookup_drop.
  destruct (rows !! (k + limit)) as [y|] eqn:Hy; cbn [fmap option_fmap option_map].
  - replace (k + limit <? length rows)%nat with true
      by (symmetry; apply Nat.ltb_lt; by apply lookup_lt_Some in Hy).
    rewrite appendMessages_app.
    rewrite (IH (k + limit) y); [done|done|lia| |].
    + unfold newerIds in *. rewrite filter_app, Forall_app. split; [done|].
      destruct arrivals as [|batch arrivals]; cbn; [by constructor|].
      by apply Forall_inv in Hlater.
    + destruct arrivals as [|batch arrivals]; cbn; [by constructor|].
      by apply Forall_inv_tail in Hlater.
  - replace (k + limit <? length rows)%nat with false
      by (symmetry; apply Nat.ltb_ge; by apply lookup_ge_None in Hy).
    done.
Qed.

(** The whole walk, from the cursorless page on. *)
Lemma followNext_all (fuel : nat) (arrivals : list (list Message.t)) :
  length rows < fuel ->
  Forall (fun batch =>
            newerIds own (filter (fun m => Message.conversationId m = id) batch))
         arrivals ->
  followNext fuel id limit None db arrivals = Some (slices fuel limit 0 rows).
Proof.
  intros Hfuel Hlater. destruct fuel as [|fuel]; [lia|].
  destruct (getConversation_page None db rows)
    as (page & Hpage & Hmessages & Hnext & _).
  { done. }
  { cbn [given fmap option_fmap option_map].
    by rewrite filter_matches_conversation. }
  cbn [followNext slices]. rewrite Hpage, Hnext, Hmessages, drop_0.
  destruct (rows !! limit) as [y|] eqn:Hy; cbn [fmap option_fmap option_map].
  - replace (0 + limit <? length rows)%nat with true
      by (symmetry; apply Nat.ltb_lt; by apply lookup_lt_Some in Hy).
    rewrite (followNext_from fuel (0 + limit) y); [done|done|lia| |].
    + destruct arrivals as [|batch arrivals]; cbn; [by constructor|].
      by apply Forall_inv in Hlater.
    + destruct arrivals as [|batch arrivals]; cbn; [by constructor|].
      by apply Forall_inv_tail in Hlater.
  - replace (0 + limit <? length rows)%nat with false
      by (symmetry; apply Nat.ltb_ge; by apply lookup_ge_None in Hy).
    done.
Qed.

(** The slices, put back together, are the rows from [k] on. *)
Lemma slices_concat (fuel k : nat) (l : list Message.t) :
  length l < k + fuel ->
  concat (reverse (slices fuel limit k l)) = map toJson (reverse (drop k l)).
Proof.
  revert k. induction fuel as [|fuel IH]; intros k Hfuel.
  { rewrite drop_ge by lia. done. }
  cbn [slices]. rewrite reverse_cons, concat_app. cbn [concat].
  rewrite app_nil_r.
  destruct (k + limit <? length l)%nat eqn:Hmore.
  - rewrite IH by lia.
    rewrite <- (take_drop limit (drop k l)) at 2.
    rewrite reverse_app, fmap_app, drop_drop. done.
  - apply Nat.ltb_ge in Hmore.
    rewrite take_ge by (rewrite length_drop; lia). done.
Qed.

Lemma slices_size (fuel k : nat) (l : list Message.t) :
  Forall (fun page : list MessageJson => length page <= limit)
         (slices fuel limit k l).
Proof.
  revert k. induction fuel as [|fuel IH]; intros k; [constructor|].
  cbn [slices]. constructor.
  - rewrite length_fmap, length_reverse, length_take. lia.
  - destruct (k + limit <? length l)%nat; [apply IH|constructor].
Qed.

End Pagination.

(** C2, as stated, fails: the rows are ordered by [createdAt] and the cursor
    bounds them by [id]. With three messages of distinct identifiers stamped
    with the same creation time and a page size of 2, the walk ends after two
    fetches and its pages hold "m1" twice. *)
Lemma tied_creation_times_repeat_a_message :
  Client.followNext 4 "c1" 2 None Scenario.sameInstant []
  = Some [ [ Scenario.json "m1" 10 Llm.user "Hello";
             Scenario.json "m3" 10 Llm.user "Bye" ];
           [ Scenario.json "m2" 10 Llm.assistant "Hi there";
             Scenario.json "m1" 10 Llm.user "Hello" ] ]
  /\ NoDup (Message.id <$> Prisma.ofConversation "c1" Scenario.sameInstant)
  /\ forall pages,
       Client.followNext 4 "c1" 2 None Scenario.sameInstant [] = Some pages ->
       ~ NoDup (concat (reverse pages)).
Proof.
  assert (Client.followNext 4 "c1" 2 None Scenario.sameInstant []
          = Some [ [ Scenario.json "m1" 10 Llm.user "Hello";
                     Scenario.json "m3" 10 Llm.user "Bye" ];
                   [ Scenario.json "m2" 10 Llm.assistant "Hi there";
                     Scenario.json "m1" 10 Llm.user "Hello" ] ]) as Hwalk
    by (vm_compute; reflexivity).
  split_and!; [done| |].
  - apply (bool_decide_unpack _). vm_compute. exact I.
  - rewrite Hwalk. intros pages [= <-]. cbn. intros Hnodup.
    apply NoDup_cons_1_2, NoDup_cons_1_1 in Hnodup.
    apply Hnodup. by left.
Qed.

(** C2, amended: in a conversation whose messages have distinct, non-empty
    identifiers and pairwise distinct creation times, the identifiers sorting
    as the creation times do, for every page size of at least 1: fetching
    without a cursor and then following [nextCursor] ends after at most N + 1
    fetches; the pages, later pages put before earlier ones, hold every one of
    the N messages exactly once, oldest first, and no page has more than
    [limit] messages. Messages that arrive between the fetches (with later
    identifiers) change none of the pages: the walk is the one of the store
    as it was at the first fetch. *)
Theorem following_nextCursor_yields_every_message_once
    (db : Prisma.Db) (id : string) (conversation : Conversation.t)
    (limit : nat) (arrivals : list (list Message.t)) :
  Prisma.conversation_findUnique id db = Some conversation ->
  1 <= limit ->
  Prisma.sortableIds (Prisma.ofConversation id db) ->
  Forall (fun batch =>
            Prisma.newerIds (Prisma.ofConversation id db)
              (filter (fun m => Message.conversationId m = id) batch))
         arrivals ->
  exists pages,
    Client.followNext (S (length (Prisma.ofConversation id db))) id limit None
      db arrivals = Some pages
    /\ Client.followNext (S (length (Prisma.ofConversation id db))) id limit
         None db [] = Some pages
    /\ concat (reverse pages)
       ≡ₚ ConversationService.toJson <$> Prisma.ofConversation id db
    /\ NoDup (concat (reverse pages))
    /\ StronglySorted
         (fun a b => ConversationService.createdAt a
                     < ConversationService.createdAt b)
         (concat (reverse pages))
    /\ Forall (fun page => length page <= limit) pages.
Proof.
  intros Hfound Hlimit Hsortable Hlater.
  set (own := Prisma.ofConversation id db).
  set (rows := Prisma.orderBy Message.createdAt Prisma.desc own).
  assert (length rows < S (length own)) as Hfuel.
  { unfold rows. rewrite length_orderBy. lia. }
  exists (Client.slices (S (length own)) limit 0 rows).
  assert (StronglySorted
            (fun a b => ConversationService.createdAt a
                        < ConversationService.createdAt b)
            (map ConversationService.toJson (reverse rows))) as Hsorted.
  { apply Sorted_StronglySorted; [intros a b c; lia|].
    apply (Sorted_fmap _ (flip Prisma.strictlyNewer)).
    - intros a b Hab. apply Hab.
    - apply Sorted_reverse, StronglySorted_Sorted.
      by apply (rows_strict db id). }
  rewrite (slices_concat limit Hlimit (S (length own)) 0 rows) by lia.
  rewrite drop_0. split_and!.
  - by apply (followNext_all db id conversation limit).
  - by apply (followNext_all db id conversation limit).
  - unfold rows. by rewrite reverse_Permutation, orderBy_perm.
  - eapply StronglySorted_NoDup; [|exact Hsorted]. intros x. apply Nat.lt_irrefl.
  - done.
  - by apply slices_size.
Qed.

Lemma sortableIds_threeMessages :
  Prisma.sortableIds (Prisma.ofConversation "c1" Scenario.threeMessages).
Proof.
  unfold Prisma.sortableIds. apply (bool_decide_unpack _).
  vm_compute. exact I.
Qed.

Lemma newerIds_fourth :
  Forall (fun batch =>
            Prisma.newerIds (Prisma.ofConversation "c1" Scenario.threeMessages)
              (filter (fun m => Message.conversationId m = "c1") batch))
         [[Scenario.fourth]].
Proof.
  unfold Prisma.newerIds. apply (bool_decide_unpack _).
  vm_compute. exact I.
Qed.

Lemma following_nextCursor_yields_every_message_once_witness :
  exists pages,
    Client.followNext 4 "c1" 2 None Scenario.threeMessages [[Scenario.fourth]]
    = Some pages
    /\ concat (reverse pages)
       = [ Scenario.json "m1" 10 Llm.user "Hello";
           Scenario.json "m2" 20 Llm.assistant "Hi there";
           Scenario.json "m3" 30 Llm.user "Bye" ].
Proof.
  destruct (following_nextCursor_yields_every_message_once
              Scenario.threeMessages "c1"
              {| Conversation.id := "c1"; Conversation.title := "Conversation #1";
                 Conversation.createdAt := 1;
                 Conversation.lastMessageAt := None |}
              2 [[Scenario.fourth]])
    as (pages & Hwalk & _).
  - reflexivity.
  - lia.
  - exact sortableIds_threeMessages.
  - exact newerIds_fourth.
  - exists pages. split; [exact Hwalk|].
    vm_compute in Hwalk. injection Hwalk as <-. reflexivity.
Defined.

(** C4, on the conversation with the messages m1, m2, m3 (oldest first): the
    code takes [prevCursor] from the oldest message of the page, not from its
    newest. The page fetched with cursor m2 and limit 2 is (m1, m2); its
    [prevCursor] is m2, and fetching with it returns the same page, whose
    newest message m2 is not newer than m2, although the newer m3 exists. The
    page fetched with cursor m3 and limit 3 is (m1, m2, m3); no newer message
    exists, yet its [prevCursor] is m2, not null, and the page fetched with it,
    (m1, m2), ends on an older message. A cursorless call computes no
    [prevCursor]. ([prevCursor_row] gives the general form: on every page of
    two or more messages, [prevCursor] is the second oldest message of that
    same page.) *)
Theorem prevCursor_is_taken_from_the_oldest_message :
  ConversationService.getConversation "c1" (Some "m2") 2 Scenario.threeMessages
  = inr {| ConversationService.pageId := "c1";
           ConversationService.pageTitle := "Conversation #1";
           ConversationService.pageMessages :=
             [ Scenario.json "m1" 10 Llm.user "Hello";
               Scenario.json "m2" 20 Llm.assistant "Hi there" ];
           ConversationService.pageInfo :=
             {| ConversationService.nextCursor := None;
                ConversationService.prevCursor := Some "m2" |} |}
  /\ ConversationService.getConversation "c1" (Some "m3") 3
       Scenario.threeMessages
     = inr {| ConversationService.pageId := "c1";
              ConversationService.pageTitle := "Conversation #1";
              ConversationService.pageMessages :=
                [ Scenario.json "m1" 10 Llm.user "Hello";
                  Scenario.json "m2" 20 Llm.assistant "Hi there";
                  Scenario.json "m3" 30 Llm.user "Bye" ];
              ConversationService.pageInfo :=
                {| ConversationService.nextCursor := None;
                   ConversationService.prevCursor := Some "m2" |} |}
  /\ ConversationService.getConversation "c1" (Some "m2") 3
       Scenario.threeMessages
     = inr {| ConversationService.pageId := "c1";
              ConversationService.pageTitle := "Conversation #1";
              ConversationService.pageMessages :=
                [ Scenario.json "m1" 10 Llm.user "Hello";
                  Scenario.json "m2" 20 Llm.assistant "Hi there" ];
              ConversationService.pageInfo :=
                {| ConversationService.nextCursor := None;
                   ConversationService.prevCursor := Some "m2" |} |}
  /\ (forall (db : Prisma.Db) (id : string) (limit : nat)
             (page : ConversationService.ConversationPage),
        ConversationService.getConversation id None limit db = inr page ->
        ConversationService.prevCursor (ConversationService.pageInfo page)
        = None).
Proof.
  split_and!; try (vm_compute; reflexivity).
  intros db id limit page. unfold ConversationService.getConversation.
  destruct (Prisma.conversation_findUnique id db); [|done].
  by intros [= <-].
Qed.


(** * Further properties *)

(** ** The retry loop, attempt by attempt *)

Section RetryLoopMore.

Import Llm.

Variable tryBlock : Attempt -> Js.Error + Completion.
Variable c : Config.
Variable fetch : nat -> Attempt.

Lemma fetchWithRetry_first_final (m j : nat) :
  (forall k, j <= k < j + m -> Timing.retriedAt tryBlock c fetch k) ->
  Timing.final tryBlock c fetch (j + m) ->
  Llm.fetchWithRetry tryBlock c fetch j
  = Some {| outcome := tryBlock (fetch (j + m));
            delays := map (backoff c) (seq j m) |}.
Proof.
  revert j. induction m as [|m IH]; intros j Hretried Hfinal.
  - rewrite Nat.add_0_r in *. rewrite fetchWithRetry_unfold.
    unfold Timing.final in Hfinal.
    destruct (tryBlock (fetch j)) as [error|result]; [|done].
    by rewrite Hfinal.
  - rewrite fetchWithRetry_unfold.
    destruct (Hretried j) as (error & -> & ->); [lia|].
    rewrite (IH (j + 1)).
    + cbn. unfold after. cbn. do 3 f_equal; [f_equal; lia|].
      by rewrite Nat.add_1_r.
    + intros k Hk. apply Hretried. lia.
    + by replace (j + 1 + m) with (j + S m) by lia.
Qed.

Lemma backoff_sum (j r : nat) :
  foldr Z.add 0%Z (map (backoff c) (seq j r))
  = (retryDelayMs c * 2 ^ Z.of_nat j * (2 ^ Z.of_nat r - 1))%Z.
Proof.
  revert j. induction r as [|r IH]; intros j.
  - cbn. lia.
  - cbn [seq map foldr]. rewrite IH. unfold backoff.
    rewrite !Nat2Z.inj_succ, !Z.pow_succ_r by lia. lia.
Qed.

End RetryLoopMore.

(** X1: a call of [complete] is settled by the first attempt that the [catch]
    block does not retry: when the attempts before the one numbered [n] all
    throw and are retried, and attempt [n] returns or throws without a retry,
    the call settles as attempt [n] does, after the [n] delays
    [retryDelayMs * 2 ^ k], [k < n]. (A backend that answers 500 twice and
    then replies gives the reply after 1000 ms and 2000 ms.) *)
Theorem complete_settles_at_the_first_final_attempt (a : Llm.Adapter)
    (backend : Llm.Backend) (messages : list Llm.Message) (n : nat) :
  (forall k, k < n ->
     Timing.retriedAt (Llm.tryBlock a) (Llm.config a)
       (backend (Llm.request a messages)) k) ->
  Timing.final (Llm.tryBlock a) (Llm.config a)
    (backend (Llm.request a messages)) n ->
  Llm.complete a backend messages
  = Some {| Llm.outcome := Llm.tryBlock a (backend (Llm.request a messages) n);
            Llm.delays := map (Llm.backoff (Llm.config a)) (seq 0 n) |}.
Proof.
  intros Hretried Hfinal. rewrite complete_loop, attemptFrom_loop.
  apply (fetchWithRetry_first_final _ _ _ n 0); [|done].
  intros k Hk. apply Hretried. lia.
Qed.

Lemma complete_settles_at_the_first_final_attempt_witness :
  Llm.complete Scenario.mockDefault Cases.failsTwice []
  = Some {| Llm.outcome := inr (Some "Hi there");
            Llm.delays := [1000%Z; 2000%Z] |}.
Proof.
  refine (complete_settles_at_the_first_final_attempt Scenario.mockDefault
            Cases.failsTwice [] 2 _ _).
  - intros k Hk. exists (Js.newError "Mock LLM returned 500").
    destruct k as [|[|k]]; [split; reflexivity|split; reflexivity|lia].
  - exact I.
Defined.

(** X2: the time a call of [complete] spends waiting between its attempts is
    [retryDelayMs * (2 ^ r - 1)] for the [r] retries it made; with the default
    settings it is 0, 1000 or 3000 ms. *)
Theorem total_wait_of_a_call (a : Llm.Adapter) (backend : Llm.Backend)
    (messages : list Llm.Message) (run : Llm.Run) :
  Llm.complete a backend messages = Some run ->
  Timing.totalWait run
  = (Llm.retryDelayMs (Llm.config a)
     * (2 ^ Z.of_nat (length (Llm.delays run)) - 1))%Z
  /\ (Llm.cfgMaxRetries (Llm.config a) = None ->
      Llm.cfgRetryDelayMs (Llm.config a) = None ->
      Timing.totalWait run = 0%Z \/ Timing.totalWait run = 1000%Z
      \/ Timing.totalWait run = 3000%Z).
Proof.
  intros Hrun. rewrite complete_loop, attemptFrom_loop in Hrun.
  apply fetchWithRetry_run in Hrun as (Hlen & Hdelays & _).
  assert (Timing.totalWait run
          = (Llm.retryDelayMs (Llm.config a)
             * (2 ^ Z.of_nat (length (Llm.delays run)) - 1))%Z) as Hwait.
  { unfold Timing.totalWait. rewrite Hdelays at 1. rewrite backoff_sum. lia. }
  split; [done|].
  intros Hretries Hdelay. rewrite Hwait.
  unfold Llm.maxRetries, Llm.retryDelayMs in *. rewrite Hretries in Hlen.
  rewrite Hdelay. cbn in Hlen |- *.
  destruct (length (Llm.delays run)) as [|[|[|r]]]; cbn; [auto|auto|auto|lia].
Qed.

Lemma total_wait_of_a_call_witness :
  Timing.totalWait
    {| Llm.outcome := inr (Some "Hi there");
       Llm.delays := [1000%Z; 2000%Z] |}
  = 3000%Z.
Proof.
  refine (eq_trans (proj1 (total_wait_of_a_call Scenario.mockDefault
                             Cases.failsTwice [] _ _)) _).
  - vm_compute. reflexivity.
  - reflexivity.
Defined.

Section UntypedFacts.

Import Untyped.

Variable tryBlock : Attempt -> Js.Error + Value.
Variable c : Llm.Config.
Variable fetch : nat -> Attempt.

(** A call settles as its last attempt did. *)
Lemma untyped_run_last (fuel attempt : nat) (run : Run) :
  fetchWithRetryFuel tryBlock c fetch fuel attempt = Some run ->
  tryBlock (fetch (attempt + length (delays run))) = outcome run.
Proof.
  revert attempt run. induction fuel as [|fuel IH]; intros attempt run; [done|].
  cbn [fetchWithRetryFuel].
  destruct (tryBlock (fetch attempt)) as [error|result] eqn:Htry.
  - destruct (Llm.retries c error attempt).
    + destruct (fetchWithRetryFuel tryBlock c fetch fuel (attempt + 1))
        as [run'|] eqn:Hrun'; [|done].
      intros [= <-]. cbn. rewrite <- (IH _ _ Hrun'). f_equal. f_equal. lia.
    + intros [= <-]. cbn. by rewrite Nat.add_0_r.
  - intros [= <-]. cbn. by rewrite Nat.add_0_r.
Qed.

(** The loop always settles. *)
Lemma untyped_settles (fuel attempt : nat) :
  Z.to_nat (Llm.maxRetries c) - attempt < fuel ->
  is_Some (fetchWithRetryFuel tryBlock c fetch fuel attempt).
Proof.
  revert attempt. induction fuel as [|fuel IH]; intros attempt Hfuel; [lia|].
  cbn [fetchWithRetryFuel].
  destruct (tryBlock (fetch attempt)) as [error|result]; [|done].
  destruct (Llm.retries c error attempt) eqn:Hretry; [|done].
  unfold Llm.retries in Hretry. apply andb_true_iff in Hretry as [_ Hlt].
  apply Z.ltb_lt in Hlt.
  destruct (IH (attempt + 1)) as [run Hrun]; [lia|].
  rewrite Hrun. by eexists.
Qed.

End UntypedFacts.

(** On the bodies of the declared type the two readings of the [try] blocks
    agree, and so do the calls. *)
Lemma ollamaTry_declared (a : Llm.Attempt) :
  Untyped.ollamaTry (Untyped.ofAttempt a)
  = Untyped.ofOutcome (Llm.OllamaLlmAdapter.tryBlock a).
Proof.
  destruct a as [e|status body]; [done|]. cbn.
  destruct (negb (Llm.ok status)); [done|].
  destruct body as [e| |response completion]; [done|done|].
  cbn. unfold Untyped.or.
  destruct response as [[|x response]|]; cbn; [|done|];
    by destruct completion as [[|y completion]|].
Qed.

Lemma mockTry_declared (a : Llm.Attempt) :
  Untyped.mockTry (Untyped.ofAttempt a)
  = Untyped.ofOutcome (Llm.MockLlmAdapter.tryBlock a).
Proof.
  destruct a as [e|status body]; [done|]. cbn.
  destruct (negb (Llm.ok status)); [done|].
  by destruct body.
Qed.

Lemma untyped_declared
    (untypedTry : Untyped.Attempt -> Js.Error + Untyped.Value)
    (tryBlock : Llm.Attempt -> Js.Error + Llm.Completion) (c : Llm.Config)
    (fetch : nat -> Llm.Attempt) (fuel attempt : nat) :
  (forall a, untypedTry (Untyped.ofAttempt a) = Untyped.ofOutcome (tryBlock a)) ->
  Untyped.fetchWithRetryFuel untypedTry c (fun n => Untyped.ofAttempt (fetch n))
    fuel attempt
  = Untyped.ofRun <$> Llm.fetchWithRetryFuel tryBlock c fetch fuel attempt.
Proof.
  intros Htry. revert attempt.
  induction fuel as [|fuel IH]; intros attempt; [done|].
  cbn [Untyped.fetchWithRetryFuel Llm.fetchWithRetryFuel]. rewrite Htry.
  destruct (tryBlock (fetch attempt)) as [error|result]; cbn; [|done].
  destruct (Llm.retries c error attempt); [|done].
  rewrite IH.
  by destruct (Llm.fetchWithRetryFuel tryBlock c fetch fuel (attempt + 1)).
Qed.

Lemma mockComplete_declared (c : Llm.Config) (backend : Llm.Backend)
    (messages : list Llm.Message) :
  Untyped.mockComplete c
    (fun request attempt => Untyped.ofAttempt (backend request attempt))
    messages
  = Untyped.ofRun <$> Llm.MockLlmAdapter.complete c backend messages.
Proof. apply untyped_declared, mockTry_declared. Qed.

(** X3: the Ollama adapter never resolves with an absent, empty or otherwise
    falsy completion: whatever the backend answers, a call that resolves
    carries a truthy value. The adapter does not check that the value is a
    text: a truthy value of another type is passed on as the completion. When
    the fields of the body are strings, as the adapter declares them, the
    call is the one of [Llm.OllamaLlmAdapter.complete] and the completion is
    a text that is not empty. Every call settles. *)
Theorem ollama_completion_is_never_empty (c : Llm.Config) (modelName : string)
    (messages : list Llm.Message) :
  (forall (backend : Untyped.Backend) (run : Untyped.Run)
          (completion : Untyped.Value),
     Untyped.ollamaComplete c modelName backend messages = Some run ->
     Untyped.outcome run = inr completion ->
     Untyped.truthy completion = true
     /\ completion <> Untyped.Undefined
     /\ completion <> Untyped.Text "")
  /\ (forall (backend : Untyped.Backend) status completion,
        backend (Llm.OllamaLlmAdapter.request c modelName messages) 0
        = Untyped.Responds status
            (Untyped.JsonValue (Untyped.Other true) completion) ->
        Llm.ok status = true ->
        Untyped.ollamaComplete c modelName backend messages
        = Some {| Untyped.outcome := inr (Untyped.Other true);
                  Untyped.delays := [] |})
  /\ (forall (backend : Llm.Backend),
        Untyped.ollamaComplete c modelName
          (fun request attempt => Untyped.ofAttempt (backend request attempt))
          messages
        = Untyped.ofRun
            <$> Llm.OllamaLlmAdapter.complete c modelName backend messages)
  /\ (forall (backend : Llm.Backend) (run : Llm.Run)
             (completion : Llm.Completion),
        Llm.OllamaLlmAdapter.complete c modelName backend messages = Some run ->
        Llm.outcome run = inr completion ->
        exists text, completion = Some text /\ text <> "")
  /\ (forall backend : Untyped.Backend,
        is_Some (Untyped.ollamaComplete c modelName backend messages)).
Proof.
  split_and!; [| | | |intros backend; apply untyped_settles; lia].
  - intros backend run completion Hrun Hout.
    apply untyped_run_last in Hrun. rewrite Hout in Hrun.
    assert (Untyped.truthy completion = true) as Htruthy.
    { unfold Untyped.ollamaTry in Hrun.
      destruct (backend _ _) as [e|status body]; [done|].
      destruct (negb (Llm.ok status)); [done|].
      destruct body as [e| |response completion']; [done|done|].
      cbn zeta in Hrun.
      destruct (Untyped.truthy (Untyped.or response completion')) eqn:Hor;
        [|done].
      cbn in Hrun. by injection Hrun as <-. }
    split_and!; [done| |]; by intros ->.
  - intros backend status completion Hfetched Hok.
    unfold Untyped.ollamaComplete, Untyped.fetchWithRetry.
    cbn [Untyped.fetchWithRetryFuel]. rewrite Hfetched. cbn.
    by rewrite Hok.
  - intros backend. apply untyped_declared, ollamaTry_declared.
  - intros backend run completion Hrun Hout.
    change (Llm.OllamaLlmAdapter.complete c modelName backend messages)
      with (Llm.attemptFrom (Llm.Ollama c modelName) backend messages 0) in Hrun.
    rewrite attemptFrom_loop in Hrun.
    apply fetchWithRetry_run in Hrun as (_ & _ & Hlast).
    rewrite Hout in Hlast. cbn [Llm.tryBlock] in Hlast.
    unfold Llm.OllamaLlmAdapter.tryBlock in Hlast.
    destruct (backend _ _) as [e|status body]; [done|].
    destruct (negb (Llm.ok status)); [done|].
    destruct body as [e| |response completion']; [done|done|].
    destruct (Js.strOr response completion') as [s|]; [|done].
    destruct (Js.truthy s) eqn:Htruthy; [|done].
    injection Hlast as <-. exists s. split; [done|].
    intros ->. done.
Qed.

Lemma ollama_completion_is_never_empty_witness :
  Untyped.ollamaComplete (Llm.defaults "http://ollama:11434") "llama3"
    Untyped.numberBody []
  = Some {| Untyped.outcome := inr (Untyped.Other true);
            Untyped.delays := [] |}
  /\ Untyped.truthy (Untyped.Other true) = true.
Proof.
  split.
  - refine (proj1 (proj2 (ollama_completion_is_never_empty
      (Llm.defaults "http://ollama:11434") "llama3" []))
      Untyped.numberBody 200 Untyped.Undefined _ _); reflexivity.
  - refine (proj1 (proj1 (ollama_completion_is_never_empty
      (Llm.defaults "http://ollama:11434") "llama3" [])
      Untyped.numberBody
      {| Untyped.outcome := inr (Untyped.Other true);
         Untyped.delays := [] |}
      (Untyped.Other true) _ _)); reflexivity.
Defined.

(** X4: retries cannot be switched off by a setting of 0: the constructors
    replace a 0 (as an undefined or NaN setting) by the default, so no adapter
    has [maxRetries], [retryDelayMs] or [timeout] equal to 0, and an adapter
    configured with [maxRetries: 0] still retries twice when the backend keeps
    answering in a way that is retried. *)
Theorem zero_settings_fall_back_to_defaults (a : Llm.Adapter)
    (backend : Llm.Backend) (messages : list Llm.Message) :
  Llm.cfgMaxRetries (Llm.config a) = Some 0%Z ->
  (forall k, exists error,
     Llm.tryBlock a (backend (Llm.request a messages) k) = inl error
     /\ Llm.isTimeout error || Llm.is500Error error = true) ->
  (exists run,
     Llm.complete a backend messages = Some run
     /\ length (Llm.delays run) = 2)
  /\ (forall a' : Llm.Adapter,
        Llm.maxRetries (Llm.config a') <> 0%Z
        /\ Llm.retryDelayMs (Llm.config a') <> 0%Z
        /\ Llm.timeout (Llm.config a') <> 0%Z).
Proof.
  intros Hzero Hfails. split.
  - assert (Llm.maxRetries (Llm.config a) = 2%Z) as Hmax
      by (unfold Llm.maxRetries; by rewrite Hzero).
    eexists. split.
    + rewrite complete_loop, attemptFrom_loop.
      apply (fetchWithRetry_first_final _ _ _ 2 0).
      * intros k Hk. destruct (Hfails k) as (error & Htry & Hkind).
        exists error. split; [done|]. unfold Llm.retries.
        rewrite Hkind, Hmax. cbn. apply Z.ltb_lt. lia.
      * unfold Timing.final. destruct (Hfails (0 + 2)) as (error & -> & Hkind).
        unfold Llm.retries. rewrite Hkind, Hmax. done.
    + done.
  - intros a'. unfold Llm.maxRetries, Llm.retryDelayMs, Llm.timeout, Js.numOr.
    split_and!.
    + destruct (Llm.cfgMaxRetries (Llm.config a')) as [z|]; [|done].
      destruct (Z.eqb_spec z 0); lia.
    + destruct (Llm.cfgRetryDelayMs (Llm.config a')) as [z|]; [|done].
      destruct (Z.eqb_spec z 0); lia.
    + destruct (Llm.cfgTimeout (Llm.config a')) as [z|]; [|done].
      destruct (Z.eqb_spec z 0); lia.
Qed.

Lemma zero_settings_fall_back_to_defaults_witness :
  exists run,
    Llm.complete Cases.noRetries Cases.alwaysFails [] = Some run
    /\ length (Llm.delays run) = 2.
Proof.
  refine (proj1 (zero_settings_fall_back_to_defaults Cases.noRetries
                   Cases.alwaysFails [] _ _)).
  - reflexivity.
  - intros k. exists (Js.newError "Mock LLM returned 500").
    split; reflexivity.
Defined.

(** ** The adapter factory *)

Lemma orDefault_truthy (x : option string) (d : string) :
  Js.truthy d = true -> Js.truthy (Config.orDefault x d) = true.
Proof.
  intros Hd. unfold Config.orDefault.
  destruct x as [s|]; [|done]. by destruct (Js.truthy s) eqn:Hs.
Qed.

(** X5: an adapter that [createLlmAdapter] returns is of the provider the
    configuration selects, has the configured base URL (and model), neither
    empty, and carries the timeout and retry settings unchanged; when the
    factory throws, the provider is not one of the two, or a setting the
    provider needs is undefined or empty. *)
Theorem createLlmAdapter_fails_fast (config : LlmConfig.t) :
  match Factory.createLlmAdapter config with
  | inr adapter =>
      Llm.baseUrl (Llm.config adapter) <> ""
      /\ Llm.cfgTimeout (Llm.config adapter) = LlmConfig.timeout config
      /\ Llm.cfgMaxRetries (Llm.config adapter) = LlmConfig.maxRetries config
      /\ Llm.cfgRetryDelayMs (Llm.config adapter)
         = LlmConfig.retryDelayMs config
      /\ match adapter with
         | Llm.Mock c =>
             LlmConfig.provider config = "mock"
             /\ LlmConfig.mockBaseUrl config = Some (Llm.baseUrl c)
         | Llm.Ollama c modelName =>
             LlmConfig.provider config = "ollama"
             /\ LlmConfig.ollamaBaseUrl config = Some (Llm.baseUrl c)
             /\ LlmConfig.ollamaModel config = Some modelName
             /\ modelName <> ""
         end
  | inl error =>
      (LlmConfig.provider config = "mock"
       /\ (LlmConfig.mockBaseUrl config = None
           \/ LlmConfig.mockBaseUrl config = Some "")
       /\ error = Js.newError "MOCK_LLM_BASE_URL is required for mock provider")
      \/ (LlmConfig.provider config = "ollama"
          /\ (LlmConfig.ollamaBaseUrl config = None
              \/ LlmConfig.ollamaBaseUrl config = Some ""
              \/ LlmConfig.ollamaModel config = None
              \/ LlmConfig.ollamaModel config = Some "")
          /\ error = Js.newError
                       "OLLAMA_BASE_URL and OLLAMA_MODEL are required for ollama provider")
      \/ (LlmConfig.provider config <> "mock"
          /\ LlmConfig.provider config <> "ollama"
          /\ error = Js.newError ("Unknown LLM provider: "
                                  +:+ LlmConfig.provider config))
  end.
Proof.
  unfold Factory.createLlmAdapter.
  destruct (bool_decide_reflect (LlmConfig.provider config = "mock"))
    as [Hmock|Hmock].
  - destruct (LlmConfig.mockBaseUrl config) as [[|ch url]|]; cbn.
    + left. auto.
    + split_and!; done.
    + left. auto.
  - destruct (bool_decide_reflect (LlmConfig.provider config = "ollama"))
      as [Hollama|Hollama].
    + destruct (LlmConfig.ollamaBaseUrl config) as [[|ch url]|];
        destruct (LlmConfig.ollamaModel config) as [[|ch' modelName]|]; cbn;
        try (right; left; split_and!; [done|auto|done]).
      split_and!; done.
    + right. right. done.
Qed.

(** X6: with the configuration that [config.ts] builds from the environment,
    whatever the environment holds, the factory throws only for a provider
    that is neither "mock" nor "ollama": the base URLs and the model have
    defaults that are not empty. With no [LLM_PROVIDER] (or an empty one) the
    mock adapter is built. *)
Theorem createLlmAdapter_from_the_environment
    (parseInt : string -> option Z) (env : Config.Env) :
  let config := Config.llm parseInt env in
  (LlmConfig.provider config = "mock" ->
   exists c, Factory.createLlmAdapter config = inr (Llm.Mock c)
             /\ Llm.baseUrl c
                = Config.orDefault (env "MOCK_LLM_BASE_URL")
                    "http://mock-llm:8080")
  /\ (LlmConfig.provider config = "ollama" ->
      exists c, Factory.createLlmAdapter config
                = inr (Llm.Ollama c (Config.orDefault (env "OLLAMA_MODEL")
                                       "llama3"))
                /\ Llm.baseUrl c
                   = Config.orDefault (env "OLLAMA_BASE_URL")
                       "http://ollama:11434")
  /\ (LlmConfig.provider config <> "mock" ->
      LlmConfig.provider config <> "ollama" ->
      Factory.createLlmAdapter config
      = inl (Js.newError ("Unknown LLM provider: "
                          +:+ LlmConfig.provider config)))
  /\ (env "LLM_PROVIDER" = None \/ env "LLM_PROVIDER" = Some "" ->
      LlmConfig.provider config = "mock").
Proof.
  intros config. unfold Factory.createLlmAdapter. split_and!.
  - intros Hmock. rewrite bool_decide_eq_true_2 by done.
    cbn [config Config.llm LlmConfig.mockBaseUrl].
    rewrite orDefault_truthy by done. cbn. eauto.
  - intros Hollama.
    rewrite bool_decide_eq_false_2 by (rewrite Hollama; done).
    rewrite bool_decide_eq_true_2 by done.
    cbn [config Config.llm LlmConfig.ollamaBaseUrl LlmConfig.ollamaModel].
    rewrite !orDefault_truthy by done. cbn. eauto.
  - intros Hmock Hollama.
    by rewrite !bool_decide_eq_false_2 by done.
  - intros [Hnone|Hempty]; cbn; [by rewrite Hnone|by rewrite Hempty].
Qed.

Lemma createLlmAdapter_from_the_environment_witness :
  Factory.createLlmAdapter (Config.llm Cases.parseDefaults Cases.otherProvider)
  = inl (Js.newError "Unknown LLM provider: openai").
Proof.
  refine (proj1 (proj2 (proj2 (createLlmAdapter_from_the_environment
            Cases.parseDefaults Cases.otherProvider))) _ _).
  - intros Hmock. vm_compute in Hmock. discriminate Hmock.
  - intros Hollama. vm_compute in Hollama. discriminate Hollama.
Defined.

(** ** The conversation table *)

Section TableFacts.

Import Prisma ConversationService.

Lemma findUnique_deleted (id : string) (l : list Conversation.t) :
  find (fun c => bool_decide (Conversation.id c = id))
       (filter (fun c => Conversation.id c <> id) l) = None.
Proof.
  induction l as [|c l IH]; [done|].
  destruct (decide (Conversation.id c = id)) as [Heq|Hne].
  - by rewrite filter_cons_False by (intros Hc; by apply Hc).
  - rewrite filter_cons_True by done. cbn.
    by rewrite bool_decide_eq_false_2.
Qed.

Lemma findUnique_others (id other : string) (l : list Conversation.t) :
  other <> id ->
  find (fun c => bool_decide (Conversation.id c = other))
       (filter (fun c => Conversation.id c <> id) l)
  = find (fun c => bool_decide (Conversation.id c = other)) l.
Proof.
  intros Hne. induction l as [|c l IH]; [done|].
  destruct (decide (Conversation.id c = id)) as [Heq|Hne'].
  - rewrite filter_cons_False by (intros Hc; by apply Hc). cbn.
    rewrite bool_decide_eq_false_2 by congruence. done.
  - rewrite filter_cons_True by done. cbn. by rewrite IH.
Qed.

Lemma findUnique_app (id : string) (l l' : list Conversation.t) :
  is_Some (find (fun c => bool_decide (Conversation.id c = id)) l) ->
  is_Some (find (fun c => bool_decide (Conversation.id c = id)) (l ++ l')).
Proof.
  induction l as [|c l IH]; cbn; [by intros [? ?]|].
  by destruct (bool_decide (Conversation.id c = id)).
Qed.

(** A row found under an identifier has that identifier. *)
Lemma findUnique_id (id : string) (db : Db) (conversation : Conversation.t) :
  conversation_findUnique id db = Some conversation ->
  Conversation.id conversation = id /\ conversation ∈ conversations db.
Proof.
  intros Hfound. apply find_some in Hfound as [Hin Hid].
  apply bool_decide_eq_true in Hid. split; [done|]. by apply list_elem_of_In.
Qed.

(** The store after [conversation.update]. *)
Lemma conversation_update_found (id : string) (t : nat) (db db' : Db) :
  conversation_update id t db = inr db' ->
  messages db' = messages db
  /\ (forall other,
        other <> id ->
        conversation_findUnique other db' = conversation_findUnique other db)
  /\ (forall other,
        is_Some (conversation_findUnique other db) ->
        is_Some (conversation_findUnique other db'))
  /\ Conversation.lastMessageAt <$> conversation_findUnique id db'
     = Some (Some t).
Proof.
  unfold conversation_update.
  destruct (conversation_findUnique id db) as [conversation|] eqn:Hfound;
    [|done].
  intros [= <-]. unfold conversation_findUnique in *. cbn.
  split_and!; [done| | |].
  - intros other Hne. clear Hfound.
    induction (conversations db) as [|c l IH]; [done|].
    cbn. destruct (bool_decide_reflect (Conversation.id c = id)) as [Heq|Hne'];
      cbn.
    + rewrite bool_decide_eq_false_2 by congruence. apply IH.
    + destruct (bool_decide (Conversation.id c = other)); [done|]. apply IH.
  - intros other. clear Hfound.
    induction (conversations db) as [|c l IH]; [done|].
    cbn. destruct (bool_decide_reflect (Conversation.id c = id)) as [Heq|Hne'];
      cbn; destruct (bool_decide (Conversation.id c = other)); eauto.
  - induction (conversations db) as [|c l IH]; [done|].
    cbn in Hfound |- *.
    destruct (bool_decide_reflect (Conversation.id c = id)) as [Heq|Hne']; cbn.
    + by rewrite bool_decide_eq_true_2.
    + rewrite bool_decide_eq_false_2 by done. by apply IH.
Qed.

End TableFacts.

Section ServiceFacts.

Import Prisma ConversationService.

(** What a call of [sendMessage] does to the store, in every case. *)
Lemma sendMessage_shape (llmAdapter : LlmAdapter) (freshUser freshReply : Fresh)
    (conversationId content : string) (db : Db) :
  let sent :=
    sendMessage llmAdapter freshUser freshReply conversationId content db in
  exists added,
    messages sent.1 = (messages db ++ added)%list
    /\ length added <= 2
    /\ Forall (fun m => Message.conversationId m = conversationId) added
    /\ (added <> [] -> is_Some (conversation_findUnique conversationId db))
    /\ (forall other,
          other <> conversationId ->
          conversation_findUnique other sent.1
          = conversation_findUnique other db)
    /\ (forall other,
          is_Some (conversation_findUnique other db) ->
          is_Some (conversation_findUnique other sent.1)).
Proof.
  intros sent.
  destruct (conversation_findUnique conversationId db) as [conversation|]
    eqn:Hfound.
  - pose proof (sendMessage_cases llmAdapter freshUser freshReply
                  conversationId content db conversation Hfound) as Hcases.
    cbn zeta in Hcases. fold sent in Hcases.
    destruct (llmAdapter (historyFor conversationId content db))
      as [error|[text|]].
    + rewrite Hcases. cbn. eexists [_]. split_and!; try done; eauto.
    + destruct Hcases as (db3 & Hupdate & ->).
      apply conversation_update_found in Hupdate
        as (Hmessages & Hothers & Hsome & _).
      cbn [fst]. rewrite Hmessages. cbn. rewrite <- app_assoc.
      eexists [_; _]. split_and!; try done; eauto.
    + rewrite Hcases. cbn. eexists [_]. split_and!; try done; eauto.
  - unfold sent, sendMessage. rewrite Hfound. cbn.
    exists []. rewrite app_nil_r. split_and!; try done; eauto.
Qed.

Lemma ofConversation_app (id : string) (db db' : Db) (added : list Message.t) :
  messages db' = (messages db ++ added)%list ->
  ofConversation id db'
  = (ofConversation id db
     ++ filter (fun m => Message.conversationId m = id) added)%list.
Proof. intros Hadded. unfold ofConversation. by rewrite Hadded, filter_app. Qed.

End ServiceFacts.

(** X7: [deleteConversation] on a stored conversation removes it and all its
    messages and nothing else: the other conversations and their messages
    are as before; afterwards [getConversation] and [sendMessage] on the
    identifier throw "Conversation not found" and leave the store as it is,
    and a second [deleteConversation] throws the store's record-not-found
    error (the call is not idempotent). *)
Theorem deleteConversation_cascades (id : string) (db : Prisma.Db)
    (conversation : Conversation.t) :
  Prisma.conversation_findUnique id db = Some conversation ->
  exists db',
    ConversationService.deleteConversation id db = (db', inr tt)
    /\ Prisma.ofConversation id db' = []
    /\ Prisma.conversation_findUnique id db' = None
    /\ (forall other,
          other <> id ->
          Prisma.ofConversation other db' = Prisma.ofConversation other db
          /\ Prisma.conversation_findUnique other db'
             = Prisma.conversation_findUnique other db)
    /\ (forall messagesCursor limit,
          ConversationService.getConversation id messagesCursor limit db'
          = inl (Js.newError "Conversation not found"))
    /\ (forall llmAdapter freshUser freshReply content,
          ConversationService.sendMessage llmAdapter freshUser freshReply id
            content db'
          = (db', inl (Js.newError "Conversation not found")))
    /\ ConversationService.deleteConversation id db'
       = (db', inl Prisma.recordNotFound).
Proof.
  intros Hfound.
  unfold ConversationService.deleteConversation, Prisma.conversation_delete.
  rewrite Hfound. eexists. split; [done|].
  assert (forall db0 : Prisma.Db,
            Prisma.conversations db0
            = filter (fun c => Conversation.id c <> id) (Prisma.conversations db) ->
            Prisma.conversation_findUnique id db0 = None) as Hgone.
  { intros db0 Hdb0. unfold Prisma.conversation_findUnique. rewrite Hdb0.
    apply findUnique_deleted. }
  split_and!.
  - unfold Prisma.ofConversation. cbn. rewrite list_filter_filter.
    apply filter_none. intros m _ [Heq Hne]. done.
  - by apply Hgone.
  - intros other Hne. split.
    + unfold Prisma.ofConversation. cbn. rewrite list_filter_filter.
      apply list_filter_iff. intros m. split; [tauto|].
      intros Hm. split; [done|congruence].
    + unfold Prisma.conversation_findUnique. cbn.
      by apply findUnique_others.
  - intros messagesCursor limit.
    unfold ConversationService.getConversation. by rewrite Hgone.
  - intros llmAdapter freshUser freshReply content.
    unfold ConversationService.sendMessage. by rewrite Hgone.
  - by rewrite Hgone.
Qed.

Lemma deleteConversation_cascades_witness :
  exists db',
    ConversationService.deleteConversation "c1" Scenario.threeMessages
    = (db', inr tt)
    /\ Prisma.ofConversation "c1" db' = [].
Proof.
  destruct (deleteConversation_cascades "c1" Scenario.threeMessages
              {| Conversation.id := "c1"; Conversation.title := "Conversation #1";
                 Conversation.createdAt := 1;
                 Conversation.lastMessageAt := None |})
    as (db' & Hdelete & Hnone & _).
  - reflexivity.
  - exists db'. split; [exact Hdelete|exact Hnone].
Defined.

(** X8: the service keeps the foreign key: in a store where every message
    belongs to a stored conversation, this still holds after
    [createConversation], after [sendMessage] (however it ends) and after
    [deleteConversation] (however it ends). No call leaves an orphaned
    message. *)
Theorem no_call_leaves_an_orphaned_message (db : Prisma.Db) :
  Invariant.integrity db ->
  (forall fresh svc,
     Invariant.integrity
       (ConversationService.createConversation fresh svc db).1.2)
  /\ (forall llmAdapter freshUser freshReply conversationId content,
        Invariant.integrity
          (ConversationService.sendMessage llmAdapter freshUser freshReply
             conversationId content db).1)
  /\ (forall id,
        Invariant.integrity (ConversationService.deleteConversation id db).1).
Proof.
  unfold Invariant.integrity. intros Hdb. rewrite Forall_forall in Hdb.
  split_and!.
  - intros fresh svc. cbn. apply Forall_forall. intros m Hm.
    unfold Prisma.conversation_findUnique. cbn.
    apply findUnique_app. by apply Hdb.
  - intros llmAdapter freshUser freshReply conversationId content.
    destruct (sendMessage_shape llmAdapter freshUser freshReply conversationId
                content db)
      as (added & Hmessages & _ & Hconv & Hfound & _ & Hkept).
    rewrite Hmessages. apply Forall_app. split.
    + apply Forall_forall. intros m Hm. by apply Hkept, Hdb.
    + rewrite Forall_forall in Hconv. apply Forall_forall. intros m Hm.
      rewrite (Hconv m Hm). apply Hkept, Hfound. intros ->.
      by apply elem_of_nil in Hm.
  - intros id. unfold ConversationService.deleteConversation,
      Prisma.conversation_delete.
    destruct (Prisma.conversation_findUnique id db); cbn;
      [|by apply Forall_forall].
    apply Forall_forall. intros m Hm.
    apply list_elem_of_filter in Hm as [Hne Hm].
    unfold Prisma.conversation_findUnique. cbn.
    rewrite findUnique_others by done. by apply Hdb.
Qed.

Lemma no_call_leaves_an_orphaned_message_witness :
  Invariant.integrity
    (ConversationService.deleteConversation "c1" Scenario.threeMessages).1.
Proof.
  refine (proj2 (proj2 (no_call_leaves_an_orphaned_message
                          Scenario.threeMessages _)) "c1").
  unfold Invariant.integrity. apply (bool_decide_unpack _).
  vm_compute. exact I.
Defined.

(** X9: [sendMessage] only appends, and only to its own conversation: the
    message rows stored before are unchanged, at most two rows are added, all
    of the conversation addressed; the messages and the row of every other
    conversation are as before; and when the call returns, the stored
    [lastMessageAt] of the conversation is the creation time of the reply. *)
Theorem sendMessage_only_appends
    (llmAdapter : ConversationService.LlmAdapter)
    (freshUser freshReply : Prisma.Fresh) (conversationId content : string)
    (db : Prisma.Db) :
  let sent :=
    ConversationService.sendMessage llmAdapter freshUser freshReply
      conversationId content db in
  (exists added,
     Prisma.messages sent.1 = (Prisma.messages db ++ added)%list
     /\ length added <= 2
     /\ Forall (fun m => Message.conversationId m = conversationId) added)
  /\ (forall other,
        other <> conversationId ->
        Prisma.ofConversation other sent.1 = Prisma.ofConversation other db
        /\ Prisma.conversation_findUnique other sent.1
           = Prisma.conversation_findUnique other db)
  /\ (forall result,
        sent.2 = inr result ->
        Conversation.lastMessageAt
        <$> Prisma.conversation_findUnique conversationId sent.1
        = Some (Some (ConversationService.createdAt
                        (ConversationService.reply result)))).
Proof.
  intros sent.
  destruct (sendMessage_shape llmAdapter freshUser freshReply conversationId
              content db)
    as (added & Hmessages & Hlen & Hconv & _ & Hothers & _).
  fold sent in Hmessages, Hothers. split_and!.
  - eauto.
  - intros other Hne. split; [|by apply Hothers].
    rewrite (ofConversation_app other db sent.1 added Hmessages).
    rewrite (filter_none _ added); [by rewrite app_nil_r|].
    rewrite Forall_forall in Hconv. intros m Hm Hm'.
    rewrite (Hconv m Hm) in Hm'. done.
  - intros result Hresult.
    destruct (Prisma.conversation_findUnique conversationId db)
      as [conversation|] eqn:Hfound.
    + pose proof (sendMessage_cases llmAdapter freshUser freshReply
                    conversationId content db conversation Hfound) as Hcases.
      cbn zeta in Hcases. fold sent in Hcases.
      destruct (llmAdapter
                  (ConversationService.historyFor conversationId content db))
        as [error|[text|]].
      * by rewrite Hcases in Hresult.
      * destruct Hcases as (db3 & Hupdate & Hsent).
        rewrite Hsent in Hresult |- *. cbn in Hresult. injection Hresult as <-.
        apply conversation_update_found in Hupdate as (_ & _ & _ & Hlast).
        exact Hlast.
      * by rewrite Hcases in Hresult.
    + unfold sent, ConversationService.sendMessage in Hresult.
      by rewrite Hfound in Hresult.
Qed.

(** ** Pages and listings, without assumptions on the identifiers *)

Section PageFacts.

Import Prisma ConversationService.

Context {A : Type} (at_ : A -> nat).

Lemma orderBy_asc_sorted (rows : list A) :
  StronglySorted (olderFirst at_) (orderBy at_ asc rows).
Proof. apply (StronglySorted_merge_sort _). Qed.

(** The first row of an ascending order is an oldest row. *)
Lemma head_orderBy_asc (rows : list A) :
  match head (orderBy at_ asc rows) with
  | Some h => h ∈ rows /\ forall x, x ∈ rows -> at_ h <= at_ x
  | None => rows = []
  end.
Proof.
  pose proof (orderBy_asc_sorted rows) as Hsorted.
  pose proof (orderBy_perm at_ asc rows) as Hperm.
  destruct (orderBy at_ asc rows) as [|h rest]; cbn.
  - by apply Permutation_nil_l in Hperm.
  - split.
    + rewrite <- Hperm. by left.
    + intros x Hx. rewrite <- Hperm in Hx.
      apply StronglySorted_inv in Hsorted as [_ Hall].
      rewrite Forall_forall in Hall.
      apply elem_of_cons in Hx as [->|Hx]; [done|]. by apply Hall.
Qed.

Lemma StronglySorted_take (R : relation A) (k : nat) (l : list A) :
  StronglySorted R l -> StronglySorted R (take k l).
Proof.
  intros Hsorted. rewrite <- (take_drop k l) in Hsorted.
  by apply StronglySorted_app in Hsorted as (_ & ? & _).
Qed.

Lemma StronglySorted_reverse (R : relation A) (l : list A) :
  StronglySorted R l -> StronglySorted (flip R) (reverse l).
Proof.
  induction 1 as [|x l Hl IH Hall]; [constructor|].
  rewrite reverse_cons. apply StronglySorted_app. split_and!.
  - intros a b Ha Hb. apply list_elem_of_singleton in Hb as ->.
    rewrite Forall_forall in Hall. apply Hall. by apply elem_of_reverse.
  - done.
  - repeat constructor.
Qed.

End PageFacts.

(** X10: every page of [getConversation] holds at most [limit] messages, all
    of them stored messages of the conversation asked for and, with a cursor,
    with an identifier not after the cursor, in the order of their creation
    times, oldest first; a [nextCursor] is the identifier of a stored message
    of the same conversation that is not newer than any message of the
    page. *)
Theorem pages_stay_within_the_conversation (id : string)
    (messagesCursor : option string) (limit : nat) (db : Prisma.Db)
    (page : ConversationService.ConversationPage) :
  ConversationService.getConversation id messagesCursor limit db = inr page ->
  length (ConversationService.pageMessages page) <= limit
  /\ (forall json,
        json ∈ ConversationService.pageMessages page ->
        exists m,
          m ∈ Prisma.ofConversation id db
          /\ json = ConversationService.toJson m
          /\ forall c,
               ConversationService.given messagesCursor = Some c ->
               String.le (Message.id m) c)
  /\ StronglySorted
       (fun a b => ConversationService.createdAt a
                   <= ConversationService.createdAt b)
       (ConversationService.pageMessages page)
  /\ (forall next,
        ConversationService.nextCursor (ConversationService.pageInfo page)
        = Some next ->
        exists m,
          m ∈ Prisma.ofConversation id db
          /\ Message.id m = next
          /\ forall json,
               json ∈ ConversationService.pageMessages page ->
               Message.createdAt m <= ConversationService.createdAt json).
Proof.
  intros Hpage.
  destruct (Prisma.conversation_findUnique id db) as [conversation|]
    eqn:Hfound.
  2: { unfold ConversationService.getConversation in Hpage.
       by rewrite Hfound in Hpage. }
  set (found :=
         Prisma.orderBy Message.createdAt Prisma.desc
           (filter (fun m =>
                      Prisma.matches
                        {| Prisma.whereConversationId := id;
                           Prisma.whereId :=
                             Prisma.Lte
                             <$> ConversationService.given messagesCursor |} m)
                   (Prisma.messages db))).
  destruct (getConversation_page id conversation limit messagesCursor db found
              Hfound eq_refl)
    as (page' & Hpage' & Hmessages & Hnext & _).
  rewrite Hpage in Hpage'. injection Hpage' as <-.
  assert (forall m, m ∈ found ->
            m ∈ Prisma.ofConversation id db
            /\ forall c,
                 ConversationService.given messagesCursor = Some c ->
                 String.le (Message.id m) c) as Hfoundin.
  { intros m Hm. apply elem_of_orderBy, list_elem_of_filter in Hm as [Hmatch Hm].
    unfold Prisma.matches in Hmatch. cbn in Hmatch.
    apply andb_True in Hmatch as [Hconv Hle].
    apply bool_decide_spec in Hconv. split.
    - unfold Prisma.ofConversation. by apply list_elem_of_filter.
    - intros c Hc. rewrite Hc in Hle. cbn in Hle.
      by apply bool_decide_spec in Hle. }
  pose proof (orderBy_desc_sorted Message.createdAt
                (filter (fun m =>
                           Prisma.matches
                             {| Prisma.whereConversationId := id;
                                Prisma.whereId :=
                                  Prisma.Lte
                                  <$> ConversationService.given messagesCursor |}
                             m)
                        (Prisma.messages db))) as Hsorted.
  fold found in Hsorted.
  rewrite Hmessages. split_and!.
  - rewrite length_fmap, length_reverse, length_take. lia.
  - intros json Hjson. apply list_elem_of_fmap in Hjson as (m & -> & Hm).
    apply elem_of_reverse, (subseteq_take limit found) in Hm.
    exists m. destruct (Hfoundin m Hm). done.
  - apply (StronglySorted_fmap _
             (flip (Prisma.newerFirst Message.createdAt))).
    + intros a b Hab. exact Hab.
    + by apply StronglySorted_reverse, StronglySorted_take.
  - intros next Hnext'. rewrite Hnext in Hnext'.
    destruct (found !! limit) as [m|] eqn:Hm; [|done].
    injection Hnext' as <-. exists m.
    destruct (Hfoundin m) as [Hown _]; [by eapply list_elem_of_lookup_2|].
    split_and!; [done|done|].
    intros json Hjson. apply list_elem_of_fmap in Hjson as (m' & -> & Hm').
    apply elem_of_reverse, elem_of_take in Hm' as (i & Hi & Hlt).
    rewrite <- (take_drop_middle found limit m Hm) in Hsorted.
    apply StronglySorted_app in Hsorted as (Hcross & _ & _).
    apply (Hcross m' m).
    + apply elem_of_take. eauto.
    + by left.
Qed.

Lemma pages_stay_within_the_conversation_witness :
  length [ Scenario.json "m2" 20 Llm.assistant "Hi there";
           Scenario.json "m3" 30 Llm.user "Bye" ] <= 2.
Proof.
  refine (proj1 (pages_stay_within_the_conversation "c1" None 2
                   Scenario.threeMessages
                   {| ConversationService.pageId := "c1";
                      ConversationService.pageTitle := "Conversation #1";
                      ConversationService.pageMessages :=
                        [ Scenario.json "m2" 20 Llm.assistant "Hi there";
                          Scenario.json "m3" 30 Llm.user "Bye" ];
                      ConversationService.pageInfo :=
                        {| ConversationService.nextCursor := Some "m1";
                           ConversationService.prevCursor := None |} |} _)).
  vm_compute. reflexivity.
Defined.

(** X11: [listConversations] lists every stored conversation exactly once,
    with its identifier, title and creation time, and lists them by creation
    time, newest first. *)
Theorem conversations_are_listed_newest_first (db : Prisma.Db) :
  StronglySorted
    (fun a b => ConversationService.summaryCreatedAt b
                <= ConversationService.summaryCreatedAt a)
    (ConversationService.listConversations db)
  /\ map (fun s => (ConversationService.summaryId s,
                    ConversationService.summaryTitle s,
                    ConversationService.summaryCreatedAt s))
         (ConversationService.listConversations db)
     ≡ₚ map (fun c => (Conversation.id c, Conversation.title c,
                       Conversation.createdAt c))
            (Prisma.conversations db).
Proof.
  unfold ConversationService.listConversations. split.
  - apply (StronglySorted_fmap _ (Prisma.newerFirst Conversation.createdAt)).
    + intros a b Hab. exact Hab.
    + apply orderBy_desc_sorted.
  - rewrite <- list_fmap_compose.
    rewrite <- (orderBy_perm Conversation.createdAt Prisma.desc
                  (Prisma.conversations db)) at 2.
    done.
Qed.

Section ExchangeFacts.

Import Prisma ConversationService.

(** The row of a conversation after [conversation.update]. *)
Lemma conversation_update_row (id : string) (t : nat) (db db' : Db)
    (conversation : Conversation.t) :
  conversation_findUnique id db = Some conversation ->
  conversation_update id t db = inr db' ->
  conversation_findUnique id db'
  = Some {| Conversation.id := Conversation.id conversation;
            Conversation.title := Conversation.title conversation;
            Conversation.createdAt := Conversation.createdAt conversation;
            Conversation.lastMessageAt := Some t |}.
Proof.
  unfold conversation_update. intros Hfound. rewrite Hfound. intros [= <-].
  unfold conversation_findUnique in *. cbn.
  induction (conversations db) as [|c l IH]; [done|].
  cbn in Hfound |- *.
  destruct (bool_decide_reflect (Conversation.id c = id)) as [Heq|Hne]; cbn.
  - rewrite bool_decide_eq_true_2 by done. by injection Hfound as ->.
  - rewrite bool_decide_eq_false_2 by done. by apply IH.
Qed.

(** Two rows with distinct times, in descending order. *)
Lemma orderBy_desc_pair (older newer : Message.t) :
  Message.createdAt older < Message.createdAt newer ->
  orderBy Message.createdAt desc [older; newer] = [newer; older].
Proof.
  intros Hlt.
  apply (StronglySorted_unique_strong (newerFirst Message.createdAt)).
  - intros a b Ha Hb Hab Hba. rewrite elem_of_orderBy in Ha.
    unfold newerFirst in Hab, Hba.
    repeat (apply elem_of_cons in Ha as [->|Ha]);
      repeat (apply elem_of_cons in Hb as [->|Hb]);
      try done; try lia; by apply elem_of_nil in Ha || by apply elem_of_nil in Hb.
  - apply orderBy_desc_sorted.
  - repeat constructor. unfold newerFirst. lia.
  - rewrite orderBy_perm. apply Permutation_swap.
Qed.

End ExchangeFacts.

(** X12: the first exchange of a conversation. When [sendMessage] is called
    on a stored conversation without messages and the adapter resolves with
    a text, with the reply stamped later than the user message, then
    [getConversation] without a cursor and with a limit of at least 2 returns
    exactly the two messages, the user message with the content sent and then
    the assistant message with the text, under the conversation's title,
    with no [nextCursor] and no [prevCursor]. *)
Theorem first_exchange_is_the_whole_page
    (llmAdapter : ConversationService.LlmAdapter)
    (freshUser freshReply : Prisma.Fresh) (conversationId content text : string)
    (db : Prisma.Db) (conversation : Conversation.t) (limit : nat) :
  Prisma.conversation_findUnique conversationId db = Some conversation ->
  Prisma.ofConversation conversationId db = [] ->
  llmAdapter (ConversationService.historyFor conversationId content db)
  = inr (Some text) ->
  Prisma.now freshUser < Prisma.now freshReply ->
  2 <= limit ->
  ConversationService.getConversation conversationId None limit
    (ConversationService.sendMessage llmAdapter freshUser freshReply
       conversationId content db).1
  = inr {| ConversationService.pageId := conversationId;
           ConversationService.pageTitle := Conversation.title conversation;
           ConversationService.pageMessages :=
             [ {| ConversationService.id := Prisma.cuid freshUser;
                  ConversationService.role := Llm.user;
                  ConversationService.content := content;
                  ConversationService.createdAt := Prisma.now freshUser |};
               {| ConversationService.id := Prisma.cuid freshReply;
                  ConversationService.role := Llm.assistant;
                  ConversationService.content := text;
                  ConversationService.createdAt := Prisma.now freshReply |} ];
           ConversationService.pageInfo :=
             {| ConversationService.nextCursor := None;
                ConversationService.prevCursor := None |} |}.
Proof.
  intros Hfound Hempty Hllm Hclock Hlimit.
  pose proof (sendMessage_cases llmAdapter freshUser freshReply conversationId
                content db conversation Hfound) as Hcases.
  cbn zeta in Hcases. rewrite Hllm in Hcases.
  destruct Hcases as (db3 & Hupdate & ->). cbn [fst].
  set (userMessage := Prisma.inserted freshUser conversationId Llm.user content)
    in *.
  set (assistantMessage :=
         Prisma.inserted freshReply conversationId Llm.assistant text) in *.
  pose proof (conversation_update_row conversationId (Prisma.now freshReply)
                (Prisma.withMessage (Prisma.withMessage db userMessage)
                   assistantMessage)
                db3 conversation Hfound Hupdate) as Hrow.
  apply conversation_update_found in Hupdate as (Hmessages & _).
  destruct (findUnique_id _ _ _ Hfound) as [Hid _].
  destruct (getConversation_page conversationId _ limit None db3
              [assistantMessage; userMessage] Hrow)
    as (page & Hpage & Hpagemessages & Hnext & Hprev).
  { cbn [ConversationService.given fmap option_fmap option_map].
    rewrite filter_matches_conversation, Hmessages. cbn [Prisma.messages Prisma.withMessage].
    rewrite <- app_assoc, filter_app.
    change (filter (fun m => Message.conversationId m = conversationId)
                   (Prisma.messages db))
      with (Prisma.ofConversation conversationId db).
    rewrite Hempty, app_nil_l.
    change ([userMessage] ++ [assistantMessage])%list
      with [userMessage; assistantMessage].
    rewrite !filter_cons_True by done. rewrite filter_nil.
    by apply orderBy_desc_pair. }
  rewrite Hpage. f_equal.
  assert (ConversationService.pageId page = conversationId
          /\ ConversationService.pageTitle page = Conversation.title conversation)
    as [Hpid Htitle].
  { unfold ConversationService.getConversation in Hpage.
    rewrite Hrow in Hpage. injection Hpage as <-. done. }
  destruct page as [pid ptitle pmessages [pnext pprev]]. cbn in *.
  rewrite Hpid, Htitle, Hpagemessages, Hnext, Hprev.
  rewrite lookup_ge_None_2 by (cbn; lia).
  rewrite take_ge by (cbn; lia). done.
Qed.

Lemma first_exchange_is_the_whole_page_witness :
  ConversationService.getConversation "c1" None 20
    (ConversationService.sendMessage Scenario.replying (Scenario.fresh "m1" 2)
       (Scenario.fresh "m2" 3) "c1" "Hello" Scenario.oneConversation).1
  = inr {| ConversationService.pageId := "c1";
           ConversationService.pageTitle := "Conversation #1";
           ConversationService.pageMessages :=
             [ Scenario.json "m1" 2 Llm.user "Hello";
               Scenario.json "m2" 3 Llm.assistant "Hi there" ];
           ConversationService.pageInfo :=
             {| ConversationService.nextCursor := None;
                ConversationService.prevCursor := None |} |}.
Proof.
  refine (first_exchange_is_the_whole_page Scenario.replying
            (Scenario.fresh "m1" 2) (Scenario.fresh "m2" 3) "c1" "Hello"
            "Hi there" Scenario.oneConversation
            {| Conversation.id := "c1"; Conversation.title := "Conversation #1";
               Conversation.createdAt := 1;
               Conversation.lastMessageAt := None |} 20 _ _ _ _ _).
  - reflexivity.
  - reflexivity.
  - reflexivity.
  - cbn. lia.
  - lia.
Defined.

(** X13: the history that [sendMessage] hands to the adapter is made of the
    stored messages of the conversation addressed, each once, by creation
    time, oldest first, followed by the new user turn; messages of other
    conversations are not in it. The call depends on the adapter through its
    answer to this history only. *)
Theorem adapter_gets_the_conversation_and_the_new_turn
    (llmAdapter llmAdapter' : ConversationService.LlmAdapter)
    (freshUser freshReply : Prisma.Fresh) (conversationId content : string)
    (db : Prisma.Db) :
  (exists stored,
     ConversationService.historyFor conversationId content db
     = (map ConversationService.toLlm stored
        ++ [ {| Llm.role := Llm.user; Llm.content := content |} ])%list
     /\ stored ≡ₚ Prisma.ofConversation conversationId db
     /\ StronglySorted (Prisma.olderFirst Message.createdAt) stored)
  /\ (llmAdapter (ConversationService.historyFor conversationId content db)
      = llmAdapter' (ConversationService.historyFor conversationId content db) ->
      ConversationService.sendMessage llmAdapter freshUser freshReply
        conversationId content db
      = ConversationService.sendMessage llmAdapter' freshUser freshReply
          conversationId content db).
Proof.
  split.
  - eexists. split; [reflexivity|].
    unfold Prisma.message_findMany, Prisma.takeRows.
    rewrite filter_matches_conversation. split.
    + apply orderBy_perm.
    + apply orderBy_asc_sorted.
  - intros Hsame. unfold ConversationService.sendMessage.
    destruct (Prisma.conversation_findUnique conversationId db); [|done].
    destruct (Prisma.message_create freshUser conversationId Llm.user
                (Some content) db) as [error|[db1 userMessage]]; [done|].
    change (map ConversationService.toLlm ?h ++ [?turn])%list
      with (ConversationService.historyFor conversationId content db).
    by rewrite Hsame.
Qed.

Lemma find_app_None {A} (f : A -> bool) (l l' : list A) :
  find f l = None -> find f (l ++ l') = find f l'.
Proof.
  induction l as [|x l IH]; cbn; [done|]. by destruct (f x).
Qed.

(** X14: a conversation just created is stored and empty. When the new
    identifier is not yet in use and every stored message belongs to a stored
    conversation, [getConversation] on the conversation that
    [createConversation] returns gives, for every cursor and limit, an empty
    page under the new title with no cursors, and [listConversations] lists
    it without a [lastMessageAt]. *)
Theorem a_new_conversation_is_stored_and_empty (fresh : Prisma.Fresh)
    (svc : ConversationService.Service) (db : Prisma.Db)
    (messagesCursor : option string) (limit : nat) :
  Prisma.conversation_findUnique (Prisma.cuid fresh) db = None ->
  Invariant.integrity db ->
  let created := ConversationService.createConversation fresh svc db in
  ConversationService.getConversation (Conversation.id created.2)
    messagesCursor limit created.1.2
  = inr {| ConversationService.pageId := Prisma.cuid fresh;
           ConversationService.pageTitle :=
             ConversationService.titleOf
               (S (ConversationService.conversationCounter svc));
           ConversationService.pageMessages := [];
           ConversationService.pageInfo :=
             {| ConversationService.nextCursor := None;
                ConversationService.prevCursor := None |} |}
  /\ exists summary,
       summary ∈ ConversationService.listConversations created.1.2
       /\ ConversationService.summaryId summary = Prisma.cuid fresh
       /\ ConversationService.summaryLastMessageAt summary = None.
Proof.
  intros Hfresh Hintegrity created.
  set (row := created.2). set (db' := created.1.2).
  assert (Conversation.id row = Prisma.cuid fresh) as Hid by reflexivity.
  rewrite Hid.
  assert (Prisma.ofConversation (Prisma.cuid fresh) db' = []) as Hempty.
  { unfold Prisma.ofConversation. cbn. apply filter_none.
    intros m Hm Hconv. unfold Invariant.integrity in Hintegrity.
    rewrite Forall_forall in Hintegrity. specialize (Hintegrity m Hm).
    rewrite Hconv, Hfresh in Hintegrity. by destruct Hintegrity. }
  assert (Prisma.conversation_findUnique (Prisma.cuid fresh) db'
          = Some row) as Hfound.
  { unfold Prisma.conversation_findUnique in *. cbn.
    rewrite find_app_None by done. cbn. by rewrite bool_decide_eq_true_2. }
  assert (forall w,
            Prisma.whereConversationId w = Prisma.cuid fresh ->
            filter (fun m => Prisma.matches w m) (Prisma.messages db')
            = []) as Hnone.
  { intros w Hw. apply filter_none. intros m Hm Hmatch.
    unfold Prisma.matches in Hmatch. apply andb_True in Hmatch as [Hconv _].
    apply bool_decide_spec in Hconv. rewrite Hw in Hconv.
    assert (m ∈ Prisma.ofConversation (Prisma.cuid fresh) db') as Hin
      by (unfold Prisma.ofConversation; by apply list_elem_of_filter).
    rewrite Hempty in Hin. by apply elem_of_nil in Hin. }
  split.
  - destruct (getConversation_page (Prisma.cuid fresh) row limit messagesCursor
                db' [] Hfound)
      as (page & Hpage & Hmessages & Hnext & Hprev).
    { by rewrite Hnone. }
    rewrite Hpage. f_equal.
    assert (ConversationService.pageId page = Prisma.cuid fresh
            /\ ConversationService.pageTitle page
               = ConversationService.titleOf
                   (S (ConversationService.conversationCounter svc)))
      as [Hpid Htitle].
    { unfold ConversationService.getConversation in Hpage.
      rewrite Hfound in Hpage. injection Hpage as <-. done. }
    destruct page as [pid ptitle pmessages [pnext pprev]]. cbn in *.
    rewrite Hpid, Htitle, Hmessages, Hnext, Hprev.
    unfold Prisma.message_findMany. rewrite Hnone by done.
    rewrite take_nil, lookup_nil.
    by destruct (ConversationService.given messagesCursor).
  - eexists. split.
    + unfold ConversationService.listConversations.
      apply list_elem_of_fmap_2. apply elem_of_orderBy.
      cbn. apply elem_of_app. right. by left.
    + cbn. split; [done|].
      unfold Prisma.message_findMany. by rewrite Hnone.
Qed.

Lemma a_new_conversation_is_stored_and_empty_witness :
  exists summary,
    summary ∈ ConversationService.listConversations
                (ConversationService.createConversation
                   (Scenario.fresh "c2" 5)
                   {| ConversationService.conversationCounter := 1 |}
                   Scenario.threeMessages).1.2
    /\ ConversationService.summaryId summary = "c2"
    /\ ConversationService.summaryLastMessageAt summary = None.
Proof.
  refine (proj2 (a_new_conversation_is_stored_and_empty (Scenario.fresh "c2" 5)
                   {| ConversationService.conversationCounter := 1 |}
                   Scenario.threeMessages None 20 _ _)).
  - reflexivity.
  - unfold Invariant.integrity. apply (bool_decide_unpack _).
    vm_compute. exact I.
Defined.

(** ** Edges of the pagination *)

Section EdgeFacts.

Import Prisma ConversationService Client.

Variable db : Db.
Variable id : string.
Variable conversation : Conversation.t.

Hypothesis Hfound : conversation_findUnique id db = Some conversation.
Hypothesis Hsortable : sortableIds (ofConversation id db).


End EdgeFacts.



(** X16: a cursor that comes before every message of the conversation (as
    an identifier that is not one of its messages may) gives an empty page
    without [nextCursor]; its [prevCursor] is then computed without a bound,
    and is the identifier of an oldest message of the conversation. *)
Theorem a_cursor_before_every_message (id cursor : string) (limit : nat)
    (db : Prisma.Db) (conversation : Conversation.t) :
  Prisma.conversation_findUnique id db = Some conversation ->
  cursor <> "" ->
  Prisma.ofConversation id db <> [] ->
  (forall m, m ∈ Prisma.ofConversation id db ->
             Message.id m <> "" /\ ~ String.le (Message.id m) cursor) ->
  exists page oldest,
    ConversationService.getConversation id (Some cursor) limit db = inr page
    /\ ConversationService.pageMessages page = []
    /\ ConversationService.nextCursor (ConversationService.pageInfo page) = None
    /\ oldest ∈ Prisma.ofConversation id db
    /\ (forall m, m ∈ Prisma.ofConversation id db ->
                  Message.createdAt oldest <= Message.createdAt m)
    /\ ConversationService.prevCursor (ConversationService.pageInfo page)
       = Some (Message.id oldest).
Proof.
  intros Hfound Hcursor Hsome Hafter.
  assert (ConversationService.given (Some cursor) = Some cursor) as Hgiven
    by (by destruct cursor).
  destruct (getConversation_page id conversation limit (Some cursor) db []
              Hfound)
    as (page & Hpage & Hmessages & Hnext & Hprev).
  { rewrite Hgiven. cbn [fmap option_fmap option_map].
    rewrite (filter_none _ (Prisma.messages db)); [done|].
    intros m Hm Hmatch. unfold Prisma.matches, Prisma.lte in Hmatch.
    cbn in Hmatch. rewrite andb_True, !bool_decide_spec in Hmatch.
    destruct Hmatch as [Hconv Hle].
    apply (Hafter m); [|done].
    unfold Prisma.ofConversation. by apply list_elem_of_filter. }
  rewrite Hgiven, take_nil in Hprev. cbn [last fmap option_fmap option_map] in Hprev.
  unfold Prisma.message_findMany, Prisma.takeRows in Hprev.
  rewrite filter_matches_conversation in Hprev.
  fold (Prisma.ofConversation id db) in Hprev.
  pose proof (head_orderBy_asc Message.createdAt (Prisma.ofConversation id db))
    as Hhead.
  destruct (Prisma.orderBy Message.createdAt Prisma.asc
              (Prisma.ofConversation id db)) as [|oldest rest]; [done|].
  cbn in Hhead, Hprev. destruct Hhead as [Hin Hmin].
  exists page, oldest. split_and!.
  - done.
  - by rewrite Hmessages, take_nil.
  - by rewrite Hnext, lookup_nil.
  - done.
  - done.
  - rewrite Hprev. destruct (Hafter oldest Hin) as [Hne _].
    by destruct (Message.id oldest).
Qed.

Lemma a_cursor_before_every_message_witness :
  exists page oldest,
    ConversationService.getConversation "c1" (Some "a") 2
      Scenario.threeMessages = inr page
    /\ ConversationService.pageMessages page = []
    /\ ConversationService.nextCursor (ConversationService.pageInfo page) = None
    /\ oldest ∈ Prisma.ofConversation "c1" Scenario.threeMessages
    /\ (forall m, m ∈ Prisma.ofConversation "c1" Scenario.threeMessages ->
                  Message.createdAt oldest <= Message.createdAt m)
    /\ ConversationService.prevCursor (ConversationService.pageInfo page)
       = Some (Message.id oldest).
Proof.
  refine (a_cursor_before_every_message "c1" "a" 2 Scenario.threeMessages
            {| Conversation.id := "c1"; Conversation.title := "Conversation #1";
               Conversation.createdAt := 1;
               Conversation.lastMessageAt := None |} _ _ _ _).
  - reflexivity.
  - discriminate.
  - discriminate.
  - apply Forall_forall. apply (bool_decide_unpack _). vm_compute. exact I.
Defined.

(** ** From the adapter's error to the client *)

Lemma status_text_timeout (a : Llm.Adapter) (status : nat) :
  100 <= status <= 999 ->
  Js.messageIncludes "timeout" (Llm.statusError a status) = false.
Proof.
  intros Hrange.
  assert (forallb (fun s =>
            negb (Js.includes "timeout" ("Mock LLM returned " +:+ pretty s))
            && negb (Js.includes "timeout" ("Ollama returned " +:+ pretty s)))
            (seq 100 900) = true) as Hall by (vm_compute; reflexivity).
  rewrite forallb_forall in Hall.
  specialize (Hall status). rewrite in_seq in Hall.
  apply andb_true_iff in Hall as [Hmock Hollama]; [|lia].
  apply negb_true_iff in Hmock, Hollama.
  destruct a; done.
Qed.

(** X17: how the error handler answers the errors of the adapters. The error
    an adapter throws for a response with a failing three-digit status is
    answered with 502 when the status is 500, and with 500 and
    "Internal server error" for every other status (also 502, 503, 504 of the
    backend); an aborted attempt is answered with 504; the error of the
    Ollama adapter for a missing completion is answered with 500. *)
Theorem upstream_failures_as_the_handler_answers_them (a : Llm.Adapter)
    (status : nat) (correlationId : string) :
  100 <= status <= 999 ->
  Llm.ok status = false ->
  Middleware.status
    (Middleware.errorHandler (Llm.statusError a status) correlationId)
  = (if bool_decide (status = 500) then 502 else 500)
  /\ Middleware.status (Middleware.errorHandler Js.abortError correlationId)
     = 504
  /\ Middleware.errorHandler
       (Js.newError "Ollama response missing completion field") correlationId
     = Middleware.errorHandler (Js.newError "unexpected failure") correlationId.
Proof.
  intros Hrange Hok. split_and!; [|done|done].
  unfold Middleware.errorHandler.
  assert (Js.zodIssues (Llm.statusError a status) = None) as -> by (by destruct a).
  assert (bool_decide (Js.name (Llm.statusError a status) = "AbortError")
          = false) as -> by (by destruct a).
  rewrite status_text_timeout by done. cbn [orb].
  pose proof (status_text_500 a status Hrange) as H500.
  unfold Llm.is500Error in H500. rewrite H500.
  by destruct (bool_decide (status = 500)).
Qed.

Lemma upstream_failures_as_the_handler_answers_them_witness :
  Middleware.status
    (Middleware.errorHandler (Llm.statusError Scenario.mockDefault 503) "req-1")
  = 500.
Proof.
  refine (proj1 (upstream_failures_as_the_handler_answers_them
                   Scenario.mockDefault 503 "req-1" _ _)).
  - lia.
  - reflexivity.
Defined.

(** ** The message route *)

(** X19: the route that sends a message validates before it does anything
    else. A body without a string [content], or with an empty one, is
    answered with 400 and "Validation error" whatever the conversation, the
    store is untouched and the adapter plays no part. Any other content is
    passed on as it is, blank or not: for a stored conversation the user
    message inserted carries exactly that text; for a conversation that is not
    stored the answer is 500 with "Internal server error" and the store is
    untouched. *)
Theorem the_message_route_validates_first
    (llmAdapter llmAdapter' : ConversationService.LlmAdapter)
    (freshUser freshReply : Prisma.Fresh) (id correlationId : string)
    (db : Prisma.Db) :
  (forall content,
     content = None \/ content = Some "" ->
     exists issues,
       Routes.postMessage llmAdapter freshUser freshReply id content
         correlationId db
       = (db, Routes.Failed
                {| Middleware.status := 400;
                   Middleware.json :=
                     {| Middleware.error := "Validation error";
                        Middleware.details := Some issues;
                        Middleware.retryAfterMs := None;
                        Middleware.correlationId := None |} |})
       /\ Routes.postMessage llmAdapter' freshUser freshReply id content
            correlationId db
          = Routes.postMessage llmAdapter freshUser freshReply id content
              correlationId db)
  /\ (forall text conversation,
        text <> "" ->
        Prisma.conversation_findUnique id db = Some conversation ->
        exists rest,
          Prisma.messages
            (Routes.postMessage llmAdapter freshUser freshReply id (Some text)
               correlationId db).1
          = (Prisma.messages db
             ++ {| Message.id := Prisma.cuid freshUser;
                   Message.conversationId := id; Message.role := Llm.user;
                   Message.content := text;
                   Message.createdAt := Prisma.now freshUser |} :: rest)%list)
  /\ (forall text,
        text <> "" ->
        Prisma.conversation_findUnique id db = None ->
        Routes.postMessage llmAdapter freshUser freshReply id (Some text)
          correlationId db
        = (db, Routes.Failed
                 {| Middleware.status := 500;
                    Middleware.json :=
                      {| Middleware.error := "Internal server error";
                         Middleware.details := None;
                         Middleware.retryAfterMs := None;
                         Middleware.correlationId := Some correlationId |} |})).
Proof.
  assert (forall text, text <> "" -> Routes.parse (Some text) = inr text)
    as Hvalid.
  { intros text Htext. unfold Routes.parse. by destruct text. }
  split_and!.
  - intros content [->| ->]; eexists; split; reflexivity.
  - intros text conversation Htext Hfound. unfold Routes.postMessage.
    rewrite Hvalid by done.
    pose proof (sendMessage_cases llmAdapter freshUser freshReply id text db
                  conversation Hfound) as Hcases.
    cbn zeta in Hcases.
    destruct (llmAdapter (ConversationService.historyFor id text db))
      as [error|[reply|]].
    + rewrite Hcases. by exists [].
    + destruct Hcases as (db3 & Hupdate & ->). cbn [fst].
      apply conversation_update_found in Hupdate as (-> & _).
      cbn. rewrite <- app_assoc. eauto.
    + rewrite Hcases. by exists [].
  - intros text Htext Hmissing. unfold Routes.postMessage.
    rewrite Hvalid by done. unfold ConversationService.sendMessage.
    by rewrite Hmissing.
Qed.

(** ** The client *)

(** X20: every answer of the error handler reaches the client as an
    [ApiError] with the status of the answer and its error text, which is
    one of "Validation error", "Upstream error/timeout" and
    "Internal server error"; the client's own texts "Unknown error" and
    "Request failed" do not occur for these answers. *)
Theorem handler_answers_reach_the_client (err : Js.Error)
    (correlationId : string) :
  let answer := Middleware.errorHandler err correlationId in
  Api.fetchApi (Api.received answer)
  = inl (Api.ApiError (Middleware.status answer)
                      (Middleware.error (Middleware.json answer)))
  /\ (Middleware.error (Middleware.json answer) = "Validation error"
      \/ Middleware.error (Middleware.json answer) = "Upstream error/timeout"
      \/ Middleware.error (Middleware.json answer) = "Internal server error")
  /\ Llm.ok (Middleware.status answer) = false.
Proof.
  intros answer. unfold answer, Middleware.errorHandler.
  destruct (Js.zodIssues err); [cbn; auto|].
  destruct (bool_decide (Js.name err = "AbortError")
            || Js.messageIncludes "timeout" err); [cbn; auto|].
  destruct (Js.messageIncludes "500" err); cbn; auto.
Qed.

(** ** The prompt *)

Lemma append_assoc (a b c : string) : (a +:+ b) +:+ c = a +:+ (b +:+ c).
Proof.
  induction a as [|ch a IH]; [reflexivity|].
  change (String ch ((a +:+ b) +:+ c) = String ch (a +:+ (b +:+ c))).
  by rewrite IH.
Qed.

Lemma join_snoc (sep : string) (l : list string) (x : string) :
  l <> [] -> Llm.join sep (l ++ [x]) = Llm.join sep l +:+ sep +:+ x.
Proof.
  induction l as [|s l IH]; [done|]. intros _.
  destruct l as [|s' l]; [done|].
  change (Llm.join sep ((s :: s' :: l) ++ [x]))
    with (s +:+ sep +:+ Llm.join sep ((s' :: l) ++ [x])).
  rewrite IH by done.
  change (Llm.join sep (s :: s' :: l))
    with (s +:+ sep +:+ Llm.join sep (s' :: l)).
  by rewrite !append_assoc.
Qed.

(** X21: the prompt both adapters send has one line "role: content" per
    turn: a history of one turn is that line, and a further turn adds a line
    feed and its line at the end. So the prompt that [sendMessage] has the
    adapter send ends with the line of the new user turn, "user: " followed by
    the content sent. *)
Theorem the_prompt_ends_with_the_new_turn (history : list Llm.Message)
    (m : Llm.Message) (conversationId content : string) (db : Prisma.Db) :
  history <> [] ->
  Llm.renderPrompt (history ++ [m])
  = Llm.renderPrompt history +:+ String "010"%char ""
    +:+ Llm.roleName (Llm.role m) +:+ ": " +:+ Llm.content m
  /\ Llm.renderPrompt [m] = Llm.roleName (Llm.role m) +:+ ": " +:+ Llm.content m
  /\ exists before,
       Llm.renderPrompt
         (ConversationService.historyFor conversationId content db)
       = before +:+ "user: " +:+ content.
Proof.
  intros Hhistory.
  assert (forall h, h <> [] ->
            Llm.renderPrompt (h ++ [m])
            = Llm.renderPrompt h +:+ String "010"%char ""
              +:+ Llm.roleName (Llm.role m) +:+ ": " +:+ Llm.content m)
    as Hsnoc.
  { intros h Hh. unfold Llm.renderPrompt. rewrite map_app. cbn [map].
    rewrite join_snoc; [done|]. by destruct h. }
  split_and!; [by apply Hsnoc|done|].
  unfold ConversationService.historyFor.
  destruct (map ConversationService.toLlm _) as [|turn turns] eqn:Hstored.
  - exists "". done.
  - unfold Llm.renderPrompt. rewrite map_app. cbn [map].
    rewrite join_snoc by done. cbn [Llm.role Llm.content Llm.roleName].
    eexists (_ +:+ String "010"%char ""). rewrite append_assoc. reflexivity.
Qed.

Lemma the_prompt_ends_with_the_new_turn_witness :
  Llm.renderPrompt
    ([ {| Llm.role := Llm.user; Llm.content := "Hello" |} ]
     ++ [ {| Llm.role := Llm.assistant; Llm.content := "Hi there" |} ])
  = "user: Hello" +:+ String "010"%char "" +:+ "assistant: Hi there".
Proof.
  refine (proj1 (the_prompt_ends_with_the_new_turn
                   [ {| Llm.role := Llm.user; Llm.content := "Hello" |} ]
                   {| Llm.role := Llm.assistant; Llm.content := "Hi there" |}
                   "c1" "Hello" Scenario.oneConversation _)).
  discriminate.
Defined.

(** ** The counter and the table *)

Lemma serve_counter (requests : list Server.Request) (s : Server.t) :
  Server.seeding s = Server.Seeded ->
  forallb (fun r => negb (Server.isRestart r)) requests = true ->
  length (Prisma.conversations (Server.store s))
  <= ConversationService.conversationCounter (Server.service s) ->
  length (Prisma.conversations (Server.store (Server.serve requests s).1))
  <= ConversationService.conversationCounter
       (Server.service (Server.serve requests s).1).
Proof.
  revert s.
  induction requests as [|r rest IH]; intros s Hseeded Hrun Hs; [done|].
  destruct r as [fresh|id| | |]; cbn in Hrun; [| |done| |]; cbn [Server.serve].
  - unfold ConversationService.createConversation, Prisma.conversation_create.
    match goal with
    | |- context [Server.serve rest ?s0] =>
        specialize (IH s0 Hseeded Hrun);
        destruct (Server.serve rest s0) as [s' titles]
    end.
    cbn in IH |- *. apply IH. rewrite length_app. cbn. lia.
  - apply IH; [done|done|]. cbn.
    unfold ConversationService.deleteConversation, Prisma.conversation_delete.
    destruct (Prisma.conversation_findUnique id (Server.store s)); cbn; [|done].
    etrans; [apply length_filter|done].
  - unfold Server.countRuns. rewrite Hseeded. by apply IH.
  - unfold Server.countAssigned. rewrite Hseeded. by apply IH.
Qed.

(** X22: a process whose [initCounter] finished before its first request
    starts with the counter at the number of conversations stored. Once
    [initCounter] has assigned and the counter is not below that number, it
    stays so through the creations and deletions of the run, and the number
    in a new title is greater than the number of conversations stored when it
    is created. (A conversation created while [initCounter] is pending breaks
    this: [creation_while_initCounter_is_pending].) *)
Theorem the_counter_is_never_below_the_table (requests : list Server.Request)
    (s0 : Server.t) (fresh : Prisma.Fresh) :
  Server.seeding s0 = Server.Seeded ->
  forallb (fun r => negb (Server.isRestart r)) requests = true ->
  length (Prisma.conversations (Server.store s0))
  <= ConversationService.conversationCounter (Server.service s0) ->
  let s := (Server.serve requests s0).1 in
  length (Prisma.conversations (Server.store s))
  <= ConversationService.conversationCounter (Server.service s)
  /\ (forall db : Prisma.Db,
        Server.seeding (Server.started db) = Server.Seeded
        /\ Server.store (Server.started db) = db
        /\ ConversationService.conversationCounter
             (Server.service (Server.started db))
           = length (Prisma.conversations db))
  /\ exists n,
       Conversation.title
         (ConversationService.createConversation fresh (Server.service s)
            (Server.store s)).2
       = ConversationService.titleOf n
       /\ length (Prisma.conversations (Server.store s)) < n.
Proof.
  intros Hseeded Hrun Hs0 s.
  assert (length (Prisma.conversations (Server.store s))
          <= ConversationService.conversationCounter (Server.service s))
    as Hle by (by apply serve_counter).
  split_and!; [done|done|].
  eexists. split; [reflexivity|]. lia.
Qed.

Lemma the_counter_is_never_below_the_table_witness :
  let s :=
    (Server.serve Scenario.deleteBetween
       (Server.started Scenario.emptyDb)).1 in
  length (Prisma.conversations (Server.store s))
  <= ConversationService.conversationCounter (Server.service s).
Proof.
  refine (proj1 (the_counter_is_never_below_the_table Scenario.deleteBetween
    (Server.started Scenario.emptyDb) (Scenario.fresh "c9" 9) _ _ _)).
  - reflexivity.
  - reflexivity.
  - vm_compute. lia.
Defined.

(** X23: a user turn whose reply failed stays in the conversation: after a
    [sendMessage] whose adapter call failed, the history of the next
    [sendMessage] on the conversation holds the stored messages as before and
    the failed user turn, each once, and then the new turn. A resubmission is
    a further user turn, not a replacement. *)
Theorem a_failed_turn_stays_in_the_history
    (llmAdapter : ConversationService.LlmAdapter)
    (freshUser freshReply : Prisma.Fresh)
    (conversationId content content' : string) (db : Prisma.Db)
    (conversation : Conversation.t) (error : Js.Error) :
  Prisma.conversation_findUnique conversationId db = Some conversation ->
  llmAdapter (ConversationService.historyFor conversationId content db)
  = inl error ->
  exists stored,
    ConversationService.historyFor conversationId content'
      (ConversationService.sendMessage llmAdapter freshUser freshReply
         conversationId content db).1
    = (map ConversationService.toLlm stored
       ++ [ {| Llm.role := Llm.user; Llm.content := content' |} ])%list
    /\ stored
       ≡ₚ (Prisma.ofConversation conversationId db
           ++ [ {| Message.id := Prisma.cuid freshUser;
                   Message.conversationId := conversationId;
                   Message.role := Llm.user; Message.content := content;
                   Message.createdAt := Prisma.now freshUser |} ])%list
    /\ {| Llm.role := Llm.user; Llm.content := content |}
       ∈ map ConversationService.toLlm stored.
Proof.
  intros Hfound Hllm.
  pose proof (sendMessage_cases llmAdapter freshUser freshReply conversationId
                content db conversation Hfound) as Hcases.
  cbn zeta in Hcases. rewrite Hllm in Hcases. rewrite Hcases. cbn [fst].
  eexists. split; [reflexivity|].
  unfold Prisma.message_findMany, Prisma.takeRows.
  rewrite filter_matches_conversation.
  assert (filter (fun m => Message.conversationId m = conversationId)
                 (Prisma.messages
                    (Prisma.withMessage db
                       (Prisma.inserted freshUser conversationId Llm.user
                          content)))
          = (Prisma.ofConversation conversationId db
             ++ [Prisma.inserted freshUser conversationId Llm.user content])%list)
    as ->.
  { cbn. rewrite filter_app. f_equal. by rewrite filter_cons_True. }
  split.
  - apply orderBy_perm.
  - apply (list_elem_of_fmap_2 ConversationService.toLlm _
             (Prisma.inserted freshUser conversationId Llm.user content)).
    apply elem_of_orderBy, elem_of_app. right. by left.
Qed.

Lemma a_failed_turn_stays_in_the_history_witness :
  exists stored,
    ConversationService.historyFor "c1" "Hello again"
      (ConversationService.sendMessage Scenario.failing (Scenario.fresh "m1" 2)
         (Scenario.fresh "m2" 3) "c1" "Hello" Scenario.oneConversation).1
    = (map ConversationService.toLlm stored
       ++ [ {| Llm.role := Llm.user; Llm.content := "Hello again" |} ])%list
    /\ stored
       ≡ₚ (Prisma.ofConversation "c1" Scenario.oneConversation
           ++ [ {| Message.id := "m1"; Message.conversationId := "c1";
                   Message.role := Llm.user; Message.content := "Hello";
                   Message.createdAt := 2 |} ])%list
    /\ {| Llm.role := Llm.user; Llm.content := "Hello" |}
       ∈ map ConversationService.toLlm stored.
Proof.
  refine (a_failed_turn_stays_in_the_history Scenario.failing
            (Scenario.fresh "m1" 2) (Scenario.fresh "m2" 3) "c1" "Hello"
            "Hello again" Scenario.oneConversation
            {| Conversation.id := "c1"; Conversation.title := "Conversation #1";
               Conversation.createdAt := 1;
               Conversation.lastMessageAt := None |}
            (Js.newError "Mock LLM returned 500") _ _).
  - reflexivity.
  - reflexivity.
Defined.

(** X24: on a page fetched with the cursor on a stored message
    (identifiers as the data model requires, limit at least 1) that holds two
    or more messages, [prevCursor] is the identifier of the second message of
    the page, the one that follows its oldest message: it points into the
    page itself. *)
Theorem prevCursor_points_into_the_page (db : Prisma.Db) (id : string)
    (conversation : Conversation.t) (limit k : nat) (x : Message.t)
    (page : ConversationService.ConversationPage)
    (oldest second : ConversationService.MessageJson)
    (rest : list ConversationService.MessageJson) :
  Prisma.conversation_findUnique id db = Some conversation ->
  Prisma.sortableIds (Prisma.ofConversation id db) ->
  Prisma.orderBy Message.createdAt Prisma.desc (Prisma.ofConversation id db)
  !! k = Some x ->
  1 <= limit ->
  ConversationService.getConversation id (Some (Message.id x)) limit db
  = inr page ->
  ConversationService.pageMessages page = oldest :: second :: rest ->
  ConversationService.prevCursor (ConversationService.pageInfo page)
  = Some (ConversationService.id second).
Proof.
  intros Hfound Hsortable Hk Hlimit Hpage Hshape.
  set (rows := Prisma.orderBy Message.createdAt Prisma.desc
                 (Prisma.ofConversation id db)) in *.
  pose proof (prevCursor_row db id conversation limit Hfound Hsortable k x page
                Hk Hlimit Hpage) as Hprev.
  cbn zeta in Hprev. fold rows in Hprev.
  assert (x ∈ Prisma.ofConversation id db) as Hx.
  { apply (elem_of_orderBy Message.createdAt Prisma.desc).
    by eapply list_elem_of_lookup_2. }
  destruct (getConversation_page id conversation limit (Some (Message.id x)) db
              (drop k rows) Hfound)
    as (page' & Hpage' & Hmessages & _).
  { cbn [ConversationService.given].
    rewrite (own_nonempty db id Hsortable x Hx).
    pose proof (cursor_rows db id Hsortable k x [] Hk) as Hrows.
    unfold Client.appendMessages in Hrows. cbn [Prisma.messages] in Hrows.
    rewrite app_nil_r in Hrows. apply Hrows. constructor. }
  rewrite Hpage in Hpage'. injection Hpage' as <-.
  rewrite Hshape in Hmessages.
  set (shown := take limit (drop k rows)) in *.
  assert (2 <= length shown) as Hlen.
  { apply (f_equal length) in Hmessages.
    rewrite length_fmap, length_reverse in Hmessages. cbn in Hmessages. lia. }
  assert (ConversationService.toJson <$> reverse shown !! 1 = Some second)
    as Hsecond.
  { rewrite <- list_lookup_fmap.
    change (ConversationService.toJson <$> reverse shown)
      with (map ConversationService.toJson (reverse shown)).
    by rewrite <- Hmessages. }
  rewrite reverse_lookup in Hsecond by lia.
  assert (length shown = Nat.min limit (length rows - k)) as Hshown
    by (unfold shown; by rewrite length_take, length_drop).
  unfold shown in Hsecond at 2.
  rewrite lookup_take_lt, lookup_drop in Hsecond by lia.
  rewrite Hprev.
  pose proof (lookup_lt_Some _ _ _ Hk) as Hklt.
  replace (Nat.min (k + limit) (length rows) - 1)
    with (S (k + (length shown - 2))) by lia.
  destruct (rows !! (k + (length shown - 2))) as [s|]; [|done].
  cbn in Hsecond |- *. by injection Hsecond as <-.
Qed.

Lemma prevCursor_points_into_the_page_witness :
  Some "m2" = Some (ConversationService.id
                      (Scenario.json "m2" 20 Llm.assistant "Hi there")).
Proof.
  refine (prevCursor_points_into_the_page Scenario.threeMessages "c1"
            {| Conversation.id := "c1"; Conversation.title := "Conversation #1";
               Conversation.createdAt := 1;
               Conversation.lastMessageAt := None |}
            3 0 (Scenario.row "m3" 30 Llm.user "Bye")
            {| ConversationService.pageId := "c1";
               ConversationService.pageTitle := "Conversation #1";
               ConversationService.pageMessages :=
                 [ Scenario.json "m1" 10 Llm.user "Hello";
                   Scenario.json "m2" 20 Llm.assistant "Hi there";
                   Scenario.json "m3" 30 Llm.user "Bye" ];
               ConversationService.pageInfo :=
                 {| ConversationService.nextCursor := None;
                    ConversationService.prevCursor := Some "m2" |} |}
            (Scenario.json "m1" 10 Llm.user "Hello")
            (Scenario.json "m2" 20 Llm.assistant "Hi there")
            [Scenario.json "m3" 30 Llm.user "Bye"] _ _ _ _ _ _).
  - reflexivity.
  - exact sortableIds_threeMessages.
  - vm_compute. reflexivity.
  - lia.
  - vm_compute. reflexivity.
  - reflexivity.
Defined.
